(** * UserService: registration gate, session rotation and profile upkeep

    A shallow embedding of [src/service/UserService.js].  Every method of
    the service is an [Async] computation: a function from the state of the
    three tables to the outcome of the promise (fulfilled with a value, or
    rejected with the thrown error) and the state the tables are left in.
    A rejection keeps the state reached so far, because the service has no
    transactions: what was written before a [throw] stays written.

    The collaborators that [UserService.js] requires but that live in other
    files (models, TokenService, MailService, the DTOs, ApiError) are
    modelled from the specification and marked as such; the opaque
    primitives (bcrypt, the token signer, the mailer) are fields of the
    [Environment] class, so every theorem holds for all of them. *)

From stdpp Require Import gmap strings list fin_maps pretty.
From Stdlib Require Import ZArith.

Local Open Scope Z_scope.

(** ** Dates

    A JavaScript [Date] is its time value: milliseconds since the epoch.
    [getSeconds] is the seconds field of the wall clock, 0..59 (zone
    offsets are whole minutes, so the field is the same in every zone).

    [getMinutes] and [setMinutes] read and write the minutes field of the
    wall clock of the process, as ECMA-262 lays it down.  The zone is its
    offset function [tza t isUTC] (LocalTZA): the offset in milliseconds
    at the instant [t] when [isUTC] is [true], and the offset to apply to
    the wall-clock value [t] when it is [false]; a wall-clock value that a
    transition repeats or skips takes the offset from before the
    transition.  The instants at hand are those [new Date()] returns, far
    inside the range TimeClip admits. *)
Module Date.

Definition t : Type := Z.

Definition getSeconds (d : t) : Z := (d / 1000) mod 60.

Definition Zone : Type := Z → bool → Z.

Definition msPerSecond : Z := 1000.
Definition msPerMinute : Z := 60000.
Definition msPerHour : Z := 3600000.
Definition msPerDay : Z := 86400000.

Definition LocalTime (tza : Zone) (d : t) : Z := d + tza d true.

Definition UTC (tza : Zone) (l : Z) : t := l - tza l false.

Definition Day (l : Z) : Z := l / msPerDay.
Definition HourFromTime (l : Z) : Z := (l / msPerHour) mod 24.
Definition MinFromTime (l : Z) : Z := (l / msPerMinute) mod 60.
Definition SecFromTime (l : Z) : Z := (l / msPerSecond) mod 60.
Definition msFromTime (l : Z) : Z := l mod msPerSecond.

Definition MakeTime (hour min sec ms : Z) : Z :=
  hour * msPerHour + min * msPerMinute + sec * msPerSecond + ms.

Definition MakeDate (day time : Z) : Z := day * msPerDay + time.

Definition getMinutes (tza : Zone) (d : t) : Z := MinFromTime (LocalTime tza d).

(** [d.setMinutes(min)]: the wall clock of [d] with its minutes field
    replaced, read back as an instant. *)
Definition setMinutes (tza : Zone) (d : t) (min : Z) : t :=
  let l := LocalTime tza d in
  UTC tza
    (MakeDate (Day l)
       (MakeTime (HourFromTime l) min (SecFromTime l) (msFromTime l))).

(** The time left from [now] until [d], in whole seconds (rounded down):
    the quantity a cooldown is expected to report. *)
Definition secondsUntil (now d : t) : Z := (d - now) / 1000.

End Date.

(** ** Errors *)

(** Modelled from the spec: [exceptions/ApiError] is not among the sources.
    A BadRequest carries a message and the array of entries the service
    passes to it; Unauthorized carries nothing. *)
Module ApiError.

(** One entry of the [errors] array of a BadRequest.  [secondsLeft] and
    [isExpired] are the kind-specific metadata; they are absent ([None])
    from the entries that do not carry them. *)
Record Detail : Type := mkDetail {
  value : string;
  msg : string;
  param : string;
  secondsLeft : option Z;
  isExpired : option bool
}.

Definition detail (v m p : string) : Detail := mkDetail v m p None None.

(** What a method can throw: the two [ApiError] factories the service
    calls, the [TypeError] JavaScript raises when a field of [null] is
    read, and the rejection of the mailer's promise. *)
Inductive t : Type :=
| BadRequest (message : string) (errors : list Detail)
| UnauthorizedError
| TypeError
| MailError.

End ApiError.

Import ApiError.

(** ** Table rows

    A row is kept apart from the key it is stored under: an account
    instance is the pair of its primary key and its columns, a code record
    the pair of its email and its columns. *)
Module User.

Record t : Type := mk {
  email : string;
  password : string;
  isActivated : bool;
  activationLink : string;
  displayName : option string;
  location : option string;
  notifyAboutProductUpdates : option bool;
  notifyAboutMarketNewsletter : option bool;
  notifyAboutComments : option bool;
  notifyAboutPurchases : option bool
}.

Definition instance : Type := Z * t.

End User.

Module RegistrationCode.

Record t : Type := mk {
  otp : string;
  expiresIn : Date.t;
  isConfirmed : bool
}.

Definition instance : Type := string * t.

End RegistrationCode.

(** Modelled from the spec: [dtos/UserDto] is not among the sources.  The
    projection keeps the non-sensitive fields of an account: never the
    password hash, never the activation link. *)
Module UserDto.

Record t : Type := mkDto {
  id : Z;
  email : string;
  isActivated : bool;
  displayName : option string;
  location : option string;
  notifyAboutProductUpdates : option bool;
  notifyAboutMarketNewsletter : option bool;
  notifyAboutComments : option bool;
  notifyAboutPurchases : option bool
}.

Definition ofInstance (r : User.instance) : t :=
  let u := snd r in
  mkDto (fst r) (User.email u) (User.isActivated u)
        (User.displayName u) (User.location u)
        (User.notifyAboutProductUpdates u)
        (User.notifyAboutMarketNewsletter u)
        (User.notifyAboutComments u)
        (User.notifyAboutPurchases u).

End UserDto.

(** Modelled from the spec: [dtos/RegCodeDto] is not among the sources.
    The projection of a code record leaves the passcode out. *)
Module RegCodeDto.

Record t : Type := mkDto {
  email : string;
  expiresIn : Date.t;
  isConfirmed : bool
}.

Definition fromModel (r : RegistrationCode.instance) : t :=
  mkDto (fst r) (RegistrationCode.expiresIn (snd r))
        (RegistrationCode.isConfirmed (snd r)).

(** [upsert] answers with the pair [(instance, created)]; [fromArray]
    projects its first component. *)
Definition fromArray (r : RegistrationCode.instance * bool) : t :=
  fromModel (fst r).

End RegCodeDto.

(** The token pair of [TokenService.generateTokens]. *)
Record Tokens : Type := mkTokens {
  accessToken : string;
  refreshToken : string
}.

(** The value [signUp], [signIn] and [refresh] resolve to:
    [{ ...tokens, user: userDto }]. *)
Record Session : Type := mkSession {
  sessionTokens : Tokens;
  user : UserDto.t
}.

(** ** Opaque collaborators

    bcrypt, the signer behind [TokenService.generateTokens] and
    [TokenService.validateRefreshToken], and [MailService]: the service
    only calls them, and their code is not among the sources, so they are
    parameters.  [mailDelivered email code] tells whether the promise of
    [MailService.sendRegistrationCode] is fulfilled ([true]) or rejected
    ([false]).  [localTZA] is the time zone the process runs in. *)
Class Environment : Type := mkEnvironment {
  bcrypt_hash : string → Z → string;
  bcrypt_compare : string → string → bool;
  generateTokens : UserDto.t → Tokens;
  validateRefreshToken : string → option UserDto.t;
  mailDelivered : string → string → bool;
  localTZA : Date.Zone
}.

(** ** The three tables *)

(** Modelled from the spec: [models/models] is not among the sources.
    Each table is a keyed store: accounts under their primary key, code
    records under the email they are upserted by, refresh tokens under the
    id of the account they are saved for. *)
Record State : Type := mkState {
  users : gmap Z User.t;
  registrationCodes : gmap string RegistrationCode.t;
  tokens : gmap Z string
}.

Definition setUsers (us : gmap Z User.t) (st : State) : State :=
  mkState us (registrationCodes st) (tokens st).

Definition setRegistrationCodes
    (cs : gmap string RegistrationCode.t) (st : State) : State :=
  mkState (users st) cs (tokens st).

Definition setTokens (ts : gmap Z string) (st : State) : State :=
  mkState (users st) (registrationCodes st) ts.

(** [findOne P m]: some row of the table that satisfies the [where]
    clause, [None] (JavaScript [null]) when there is none. *)
Definition findOne {K V : Type} `{Countable K}
    (P : V → Prop) `{∀ v, Decision (P v)} (m : gmap K V) : option (K * V) :=
  head (map_to_list (filter (λ kv, P (snd kv)) m)).

(** [destroy P m]: the table without the rows that satisfy the clause. *)
Definition destroy {K V : Type} `{Countable K}
    (P : V → Prop) `{∀ v, Decision (P v)} (m : gmap K V) : gmap K V :=
  filter (λ kv, ¬ P (snd kv)) m.

(** [byKey k m]: the row stored under [k], with its key. *)
Definition byKey {K V : Type} `{Countable K} (k : K) (m : gmap K V)
    : option (K * V) :=
  (λ v, (k, v)) <$> m !! k.

(** ** Promises: state and rejection *)
Inductive Outcome (A : Type) : Type :=
| Fulfilled (a : A)
| Rejected (e : ApiError.t).

Arguments Fulfilled {A} a.
Arguments Rejected {A} e.

Definition Async (A : Type) : Type := State → Outcome A * State.

Definition resolve {A : Type} (a : A) : Async A := λ st, (Fulfilled a, st).

Definition throw {A : Type} (e : ApiError.t) : Async A :=
  λ st, (Rejected e, st).

Definition await {A B : Type} (m : Async A) (k : A → Async B) : Async B :=
  λ st, match m st with
        | (Fulfilled a, st') => k a st'
        | (Rejected e, st') => (Rejected e, st')
        end.

Definition read {A : Type} (f : State → A) : Async A :=
  λ st, (Fulfilled (f st), st).

Definition write (f : State → State) : Async unit :=
  λ st, (Fulfilled tt, f st).

Notation "x ⇐ m ; k" := (await m (λ x, k))
  (at level 100, m at next level, right associativity,
   format "'[v' x  ⇐  m ; '/' k ']'").
Notation "m ;; k" := (await m (λ _, k))
  (at level 100, right associativity, format "'[v' m ;; '/' k ']'").

(** The outcome and the final state of running a method. *)
Definition outcome {A : Type} (m : Async A) (st : State) : Outcome A :=
  fst (m st).

Definition after {A : Type} (m : Async A) (st : State) : State :=
  snd (m st).

(** ** Store collaborators *)

(** Modelled from the spec: [UserModel] of [models/models] is not among
    the sources; these are the operations of the specification's
    UserStore (lookup by email and by id, create, update). *)
Module UserModel.

Definition findOne_email (email : string) : Async (option User.instance) :=
  read (λ st, findOne (λ u, User.email u = email) (users st)).

Definition findOne_activationLink (link : string)
    : Async (option User.instance) :=
  read (λ st, findOne (λ u, User.activationLink u = link) (users st)).

Definition findOne_id (id : Z) : Async (option User.instance) :=
  read (λ st, byKey id (users st)).

Definition findByPk (id : Z) : Async (option User.instance) := findOne_id id.

(** [create] inserts the account under a primary key no account has yet;
    the columns it is not given start out NULL. *)
Definition create (email password activationLink : string)
    (isActivated : bool) : Async User.instance :=
  λ st,
    let id : Z := fresh (dom (users st)) in
    let u := User.mk email password isActivated activationLink
                     None None None None None None in
    (Fulfilled (id, u), setUsers (<[id := u]> (users st)) st).

(** [instance.update patch]: the patched columns replace the stored ones
    and the instance in hand carries them from then on. *)
Definition update (patch : User.t → User.t) (r : User.instance)
    : Async User.instance :=
  λ st, (Fulfilled (fst r, patch (snd r)),
         setUsers (<[fst r := patch (snd r)]> (users st)) st).

End UserModel.

(** Modelled from the spec: [RegistrationCodeModel] of [models/models] is
    not among the sources; these are the operations of the specification's
    RegistrationCodeStore (lookup by email, upsert by email, delete by
    email), with the update of a loaded record. *)
Module RegistrationCodeModel.

Definition findOne_email (email : string)
    : Async (option RegistrationCode.instance) :=
  read (λ st, byKey email (registrationCodes st)).

(** [findOne({ where: { email, otp } })]: the record of that email, when
    its passcode is the given one. *)
Definition findOne_email_otp (email otp : string)
    : Async (option RegistrationCode.instance) :=
  read (λ st,
    match byKey email (registrationCodes st) with
    | Some r =>
        if decide (RegistrationCode.otp (snd r) = otp) then Some r else None
    | None => None
    end).

(** [upsert] writes the record under its email and answers with the
    written instance and whether it is a new row. *)
Definition upsert (r : RegistrationCode.instance)
    : Async (RegistrationCode.instance * bool) :=
  λ st,
    let cs := registrationCodes st in
    (Fulfilled (r, bool_decide (cs !! fst r = None)),
     setRegistrationCodes (<[fst r := snd r]> cs) st).

Definition destroy_email (email : string) : Async unit :=
  write (λ st, setRegistrationCodes (delete email (registrationCodes st)) st).

Definition update (patch : RegistrationCode.t → RegistrationCode.t)
    (r : RegistrationCode.instance) : Async RegistrationCode.instance :=
  λ st,
    (Fulfilled (fst r, patch (snd r)),
     setRegistrationCodes
       (<[fst r := patch (snd r)]> (registrationCodes st)) st).

End RegistrationCodeModel.

(** Modelled from the spec: the store half of [service/TokenService] is
    not among the sources; these are the operations of the specification's
    SessionStore (save with overwrite, find by value, remove by value). *)
Module TokenService.

(** Saving overwrites whatever token was stored for the account. *)
Definition saveRefreshToken (userId : Z) (token : string) : Async unit :=
  write (λ st, setTokens (<[userId := token]> (tokens st)) st).

Definition findRefreshToken (token : string) : Async (option (Z * string)) :=
  read (λ st, findOne (λ t, t = token) (tokens st)).

(** Removal by value; resolves to the number of rows removed. *)
Definition removeRefreshToken (token : string) : Async nat :=
  λ st,
    let ts := destroy (λ t, t = token) (tokens st) in
    (Fulfilled (size (tokens st) - size ts)%nat, setTokens ts st).

End TokenService.

(** ** Patches applied through [instance.update]

    An [undefined] property of the patch object ([None] here) leaves the
    column as it is. *)
Definition orKeep {A : Type} (new : option A) (old : A) : A := default old new.

Record ProfileData : Type := mkProfileData {
  pd_email : option string;
  pd_displayName : option (option string);
  pd_location : option (option string);
  pd_notifyAboutProductUpdates : option (option bool);
  pd_notifyAboutMarketNewsletter : option (option bool);
  pd_notifyAboutComments : option (option bool);
  pd_notifyAboutPurchases : option (option bool)
}.

Definition setProfile (d : ProfileData) (u : User.t) : User.t :=
  User.mk
    (orKeep (pd_email d) (User.email u))
    (User.password u) (User.isActivated u) (User.activationLink u)
    (orKeep (pd_displayName d) (User.displayName u))
    (orKeep (pd_location d) (User.location u))
    (orKeep (pd_notifyAboutProductUpdates d) (User.notifyAboutProductUpdates u))
    (orKeep (pd_notifyAboutMarketNewsletter d)
            (User.notifyAboutMarketNewsletter u))
    (orKeep (pd_notifyAboutComments d) (User.notifyAboutComments u))
    (orKeep (pd_notifyAboutPurchases d) (User.notifyAboutPurchases u)).

Definition setPassword (hash : string) (u : User.t) : User.t :=
  User.mk (User.email u) hash (User.isActivated u)
    (User.activationLink u) (User.displayName u) (User.location u)
    (User.notifyAboutProductUpdates u) (User.notifyAboutMarketNewsletter u)
    (User.notifyAboutComments u) (User.notifyAboutPurchases u).

Definition setIsActivated (b : bool) (u : User.t) : User.t :=
  User.mk (User.email u) (User.password u) b
    (User.activationLink u) (User.displayName u) (User.location u)
    (User.notifyAboutProductUpdates u) (User.notifyAboutMarketNewsletter u)
    (User.notifyAboutComments u) (User.notifyAboutPurchases u).

Definition setIsConfirmed (b : bool) (c : RegistrationCode.t)
    : RegistrationCode.t :=
  RegistrationCode.mk (RegistrationCode.otp c) (RegistrationCode.expiresIn c) b.

Record PasswordChange : Type := mkPasswordChange {
  oldPassword : string;
  newPassword : string;
  confirmNewPassword : string
}.

(** Reading a property, or calling a method, of a looked-up row that may
    be [null] is a [TypeError]. *)
Definition deref {A : Type} (o : option A) : Async A :=
  match o with
  | Some a => resolve a
  | None => throw TypeError
  end.

(** [UserDto.fromModel] reads the fields of the row it is given. *)
Definition UserDto_fromModel (r : option User.instance) : Async UserDto.t :=
  u ⇐ deref r;
  resolve (UserDto.ofInstance u).

(** [if (c) { throw ... }] *)
Definition when (c : bool) (m : Async unit) : Async unit :=
  if c then m else resolve tt.

(** JavaScript truthiness of a looked-up row and of a string. *)
Definition truthy {A : Type} (o : option A) : bool :=
  match o with Some _ => true | None => false end.

Definition nonEmpty (s : string) : bool := negb (bool_decide (s = "")).

(** ** The service

    Values that a call draws from outside are arguments of the method:
    the instants [new Date()] returns, the link [uuid.v4()] returns and
    the passcode [generateCode()] returns. *)
Section UserService.

Context `{Environment}.

Definition signUp (activationLink : string) (email password : string)
    : Async Session :=
  candidate ⇐ UserModel.findOne_email email;
  when (truthy candidate)
    (throw (BadRequest "Ошибка регистрации"
       [detail email "Пользователь с таким email уже существует" "email"]));;
  codeData ⇐ RegistrationCodeModel.findOne_email email;
  when (match codeData with
        | None => true
        | Some c => negb (RegistrationCode.isConfirmed (snd c))
        end)
    (throw (BadRequest "Ошибка регистрации"
       [detail email "Учетная запись не подтверждена" "email"]));;
  let hashPassword := bcrypt_hash password 7 in
  user ⇐ UserModel.create email hashPassword activationLink true;
  RegistrationCodeModel.destroy_email email;;
  userDto ⇐ UserDto_fromModel (Some user);
  let tokens := generateTokens userDto in
  TokenService.saveRefreshToken (UserDto.id userDto) (refreshToken tokens);;
  resolve (mkSession tokens userDto).

(** The update of [activate] is started and not awaited; the model takes
    the write as done when the method returns. *)
Definition activate (activationLink : string) : Async unit :=
  user ⇐ UserModel.findOne_activationLink activationLink;
  match user with
  | None => throw (BadRequest "Некорректная ссылка активации" [])
  | Some u =>
      UserModel.update (setIsActivated true) u;;
      resolve tt
  end.

Definition signIn (email password : string) : Async Session :=
  user ⇐ UserModel.findOne_email email;
  match user with
  | None =>
      throw (BadRequest "Ошибка авторизации"
        [detail email "Пользователь с таким email не зарегистрирован" "email"])
  | Some u =>
      let isPassEquals := bcrypt_compare password (User.password (snd u)) in
      when (negb isPassEquals)
        (throw (BadRequest "Ошибка авторизации"
           [detail password "Пароль введен неверно" "password"]));;
      userDto ⇐ UserDto_fromModel (Some u);
      let tokens := generateTokens userDto in
      TokenService.saveRefreshToken (UserDto.id userDto) (refreshToken tokens);;
      resolve (mkSession tokens userDto)
  end.

Definition logout (refreshToken : string) : Async nat :=
  token ⇐ TokenService.removeRefreshToken refreshToken;
  resolve token.

Definition refresh (token : string) : Async Session :=
  when (negb (nonEmpty token)) (throw UnauthorizedError);;
  tokenFromDB ⇐ TokenService.findRefreshToken token;
  when (negb (truthy tokenFromDB)) (throw UnauthorizedError);;
  TokenService.removeRefreshToken token;;
  match validateRefreshToken token with
  | None => throw UnauthorizedError
  | Some userData =>
      user ⇐ UserModel.findOne_id (UserDto.id userData);
      userDto ⇐ UserDto_fromModel user;
      let tokens := generateTokens userDto in
      TokenService.saveRefreshToken (UserDto.id userDto) (refreshToken tokens);;
      resolve (mkSession tokens userDto)
  end.

Definition sendRegistrationCode (currentDate date : Date.t) (code : string)
    (email : string) : Async RegCodeDto.t :=
  candidate ⇐ UserModel.findOne_email email;
  when (truthy candidate)
    (throw (BadRequest "Ошибка отправки кода"
       [detail email "Пользователь с таким email уже существует" "email"]));;
  candidateCode ⇐ RegistrationCodeModel.findOne_email email;
  match candidateCode with
  | None => resolve tt
  | Some c =>
      let expiresIn := RegistrationCode.expiresIn (snd c) in
      when (currentDate <? expiresIn)
        (let secondsLeft :=
           Date.getSeconds expiresIn - Date.getSeconds currentDate in
         throw (BadRequest "Ошибка отправки кода"
           [mkDetail email
              ("Повторите отправку кода через: " +:+ pretty secondsLeft)
              "email" (Some secondsLeft) None]))
  end;;
  let date :=
    Date.setMinutes localTZA date (Date.getMinutes localTZA date + 1) in
  codeData ⇐ RegistrationCodeModel.upsert
    (email, RegistrationCode.mk code date false);
  let codeDto := RegCodeDto.fromArray codeData in
  (if mailDelivered email code then resolve tt else throw MailError);;
  resolve codeDto.

(** The update of the record is started and not awaited; the instance in
    hand is confirmed at once, and the model takes the write as done when
    the method returns. *)
Definition verifyRegistrationCode (now : Date.t) (email code : string)
    : Async RegCodeDto.t :=
  codeData ⇐ RegistrationCodeModel.findOne_email_otp email code;
  match codeData with
  | None =>
      throw (BadRequest "Ошибка ввода кода"
        [mkDetail code "Код введен неверно!" "code" None (Some false)])
  | Some c =>
      when (RegistrationCode.expiresIn (snd c) <? now)
        (throw (BadRequest "Ошибка ввода кода"
           [mkDetail code "Срок действия кода истек. Повторите запрос кода!"
              "code" None (Some true)]));;
      c' ⇐ RegistrationCodeModel.update (setIsConfirmed true) c;
      resolve (RegCodeDto.fromModel c')
  end.

Definition updateProfileData (data : ProfileData) (userId : Z)
    : Async UserDto.t :=
  user ⇐ UserModel.findByPk userId;
  u ⇐ deref user;
  u' ⇐ UserModel.update (setProfile data) u;
  UserDto_fromModel (Some u').

Definition updateProfilePassword (p : PasswordChange) (userId : Z)
    : Async UserDto.t :=
  when (negb (bool_decide (newPassword p = confirmNewPassword p)))
    (throw (BadRequest "Ошибка обновления пароля"
       [detail (confirmNewPassword p) "Пароли не совадают"
          "confirmNewPassword"]));;
  user ⇐ UserModel.findByPk userId;
  u ⇐ deref user;
  let isPassEquals := bcrypt_compare (oldPassword p) (User.password (snd u)) in
  when (negb isPassEquals)
    (throw (BadRequest "Ошибка обновления пароля"
       [detail (oldPassword p) "Старый пароль введен неверно" "oldPassword"]));;
  let isNewPassEquals :=
    bcrypt_compare (newPassword p) (User.password (snd u)) in
  when isNewPassEquals
    (throw (BadRequest "Ошибка обновления пароля"
       [detail (newPassword p) "Новый пароль не должен совпадать со старым"
          "newPassword"]));;
  let hashNewPassword := bcrypt_hash (newPassword p) 7 in
  u' ⇐ UserModel.update (setPassword hashNewPassword) u;
  UserDto_fromModel (Some u').

End UserService.

(** ** The error kinds of the specification, as the service builds them *)
Definition AlreadyRegistered (message email : string) : ApiError.t :=
  BadRequest message
    [detail email "Пользователь с таким email уже существует" "email"].

Definition RegistrationNotConfirmed (email : string) : ApiError.t :=
  BadRequest "Ошибка регистрации"
    [detail email "Учетная запись не подтверждена" "email"].

Definition CooldownActive (email : string) (seconds : Z) : ApiError.t :=
  BadRequest "Ошибка отправки кода"
    [mkDetail email ("Повторите отправку кода через: " +:+ pretty seconds)
       "email" (Some seconds) None].

Definition InvalidCode (code : string) : ApiError.t :=
  BadRequest "Ошибка ввода кода"
    [mkDetail code "Код введен неверно!" "code" None (Some false)].

Definition ExpiredCode (code : string) : ApiError.t :=
  BadRequest "Ошибка ввода кода"
    [mkDetail code "Срок действия кода истек. Повторите запрос кода!"
       "code" None (Some true)].

Definition Mismatch (confirm : string) : ApiError.t :=
  BadRequest "Ошибка обновления пароля"
    [detail confirm "Пароли не совадают" "confirmNewPassword"].

Definition InvalidCredentials (old : string) : ApiError.t :=
  BadRequest "Ошибка обновления пароля"
    [detail old "Старый пароль введен неверно" "oldPassword"].

Definition NoOpChange (new : string) : ApiError.t :=
  BadRequest "Ошибка обновления пароля"
    [detail new "Новый пароль не должен совпадать со старым" "newPassword"].

Definition Unauthorized : ApiError.t := UnauthorizedError.

(** ** Vocabulary of the statements *)

(** An account with this email exists. *)
Definition accountExists (email : string) (st : State) : Prop :=
  ∃ id u, users st !! id = Some u ∧ User.email u = email.

(** The refresh token resolves: some account has it stored. *)
Definition resolves (token : string) (st : State) : Prop :=
  ∃ id, tokens st !! id = Some token.

(** The code record of the email is there and confirmed. *)
Definition confirmed (email : string) (st : State) : Prop :=
  ∃ c, registrationCodes st !! email = Some c
       ∧ RegistrationCode.isConfirmed c = true.

(** The refresh tokens left once [token] has been removed. *)
Definition without (token : string) (st : State) : gmap Z string :=
  destroy (λ t, t = token) (tokens st).

(** The code record of the email has not expired yet at [now]: a new
    issuance is held back. *)
Definition coolingDown (now : Date.t) (email : string) (st : State) : Prop :=
  ∃ c, registrationCodes st !! email = Some c
       ∧ now < RegistrationCode.expiresIn c.

(** The account [signUp] creates. *)
Definition newAccount `{Environment} (link email password : string) : User.t :=
  User.mk email (bcrypt_hash password 7) true link
          None None None None None None.

(** The expiry an issuance that reads the instant [date] stores: what
    [date.setMinutes(date.getMinutes() + 1)] leaves in [date]. *)
Definition issuedExpiry `{Environment} (date : Date.t) : Date.t :=
  Date.setMinutes localTZA date (Date.getMinutes localTZA date + 1).

(** The record an issuance at [date] writes, and its projection. *)
Definition issuedCode `{Environment} (date : Date.t) (code : string)
    : RegistrationCode.t :=
  RegistrationCode.mk code (issuedExpiry date) false.

Definition issuedDto `{Environment} (date : Date.t) (email : string)
    : RegCodeDto.t :=
  RegCodeDto.mkDto email (issuedExpiry date) false.

(** ** A concrete environment and concrete tables

    One account, Ann's, under key 1.  The hasher tags the plaintext; the
    signer derives both tokens from the email claim alone, as a signer that
    is a function of the claims does, and recognises the tokens it issues
    for Ann's present and former email; the mailer delivers or not. *)
Definition ann (email : string) : User.t :=
  User.mk email "hash:secret" true "link-1" None None None None None None.

Definition demo (delivers : bool) : Environment :=
  {| bcrypt_hash p _ := "hash:" +:+ p;
     bcrypt_compare p h := bool_decide (h = "hash:" +:+ p);
     generateTokens d :=
       mkTokens ("access:" +:+ UserDto.email d) ("refresh:" +:+ UserDto.email d);
     validateRefreshToken t :=
       if decide (t = "refresh:ann@example.org")
       then Some (UserDto.ofInstance (1, ann "ann@example.org"))
       else if decide (t = "refresh:ann@old.org")
       then Some (UserDto.ofInstance (1, ann "ann@old.org"))
       else None;
     mailDelivered _ _ := delivers;
     localTZA _ _ := 0 |}.

(** The same environment in another time zone. *)
Definition inZone (tza : Date.Zone) (E : Environment) : Environment :=
  {| bcrypt_hash := bcrypt_hash (Environment := E);
     bcrypt_compare := bcrypt_compare (Environment := E);
     generateTokens := generateTokens (Environment := E);
     validateRefreshToken := validateRefreshToken (Environment := E);
     mailDelivered := mailDelivered (Environment := E);
     localTZA := tza |}.

(** New York around the end of daylight saving time in 2026: at
    06:00:00 UTC on 1 November ([fallBack]) the wall clock goes from 02:00
    (four hours behind UTC) back to 01:00 (five hours behind), and the
    wall-clock hour from 01:00 to 02:00 of that day, which occurs twice,
    is read with the offset from before the transition. *)
Definition fallBack : Date.t := 1793512800000.

Definition newYork : Date.Zone :=
  λ t isUTC,
    if isUTC
    then if t <? fallBack then -4 * Date.msPerHour else -5 * Date.msPerHour
    else if t <? fallBack - 4 * Date.msPerHour
         then -4 * Date.msPerHour else -5 * Date.msPerHour.

(** Ann is signed in. *)
Definition signedIn : State :=
  mkState {[1 := ann "ann@example.org"]} ∅
          {[1 := "refresh:ann@example.org"%string]}.

(** Ann is signed in with a token issued before she changed her email. *)
Definition signedInBeforeMove : State :=
  mkState {[1 := ann "ann@example.org"]} ∅
          {[1 := "refresh:ann@old.org"%string]}.

(** Ann's stored token is one the signer no longer accepts. *)
Definition staleSession : State :=
  mkState {[1 := ann "ann@example.org"]} ∅ {[1 := "refresh:stale"%string]}.

(** Bob has confirmed the passcode 1234, which expires at 00:01:10. *)
Definition bobConfirmed : State :=
  mkState {[1 := ann "ann@example.org"]}
          {["bob@example.org"%string := RegistrationCode.mk "1234" 70000 true]}
          ∅.

(** ** Statements that are put to the test

    Single use of a refresh token, as one would state it without a word on
    the signer: a stored token the signer accepts is exchanged for a
    different one, and a second exchange of it is refused. *)
Definition singleUse `{Environment} (token : string) (st : State) : Prop :=
  resolves token st → is_Some (validateRefreshToken token) →
  ∃ s, outcome (refresh token) st = Fulfilled s
       ∧ refreshToken (sessionTokens s) ≠ token
       ∧ outcome (refresh token) (after (refresh token) st)
         = Rejected Unauthorized.

(** Two environments run in the same time zone. *)
Definition sameZone (E1 E2 : Environment) : Prop :=
  ∀ t isUTC,
    localTZA (Environment := E1) t isUTC = localTZA (Environment := E2) t isUTC.

(** A dispatch that is fire-and-forget: whatever two environments in the
    same time zone do (the mailer and the zone are the only parts of them
    an issuance uses), the issuance has the same outcome. *)
Definition senderIndependent (currentDate date : Date.t)
    (code email : string) (st : State) : Prop :=
  ∀ E1 E2 : Environment, sameZone E1 E2 →
    outcome (sendRegistrationCode (H := E1) currentDate date code email) st
    = outcome (sendRegistrationCode (H := E2) currentDate date code email) st.


(** ** More vocabulary: sign-in, activation, and a call of any method *)

(** The two rejections of [signIn] and the one of [activate]. *)
Definition NotRegistered (email : string) : ApiError.t :=
  BadRequest "Ошибка авторизации"
    [detail email "Пользователь с таким email не зарегистрирован" "email"].

Definition WrongPassword (password : string) : ApiError.t :=
  BadRequest "Ошибка авторизации"
    [detail password "Пароль введен неверно" "password"].

Definition InvalidActivationLink : ApiError.t :=
  BadRequest "Некорректная ссылка активации" [].

(** Some account carries this activation link. *)
Definition linkIssued (link : string) (st : State) : Prop :=
  ∃ id u, users st !! id = Some u ∧ User.activationLink u = link.

(** The account under [id] is the only one with its email. *)
Definition soleOwner (id : Z) (email : string) (st : State) : Prop :=
  ∀ id' u', users st !! id' = Some u' → User.email u' = email → id' = id.

(** A call of one of the nine methods of the service, with the values it
    draws from outside. *)
Inductive Request : Type :=
| SignUp (activationLink email password : string)
| Activate (activationLink : string)
| SignIn (email password : string)
| Logout (token : string)
| Refresh (token : string)
| SendRegistrationCode (currentDate date : Date.t) (code email : string)
| VerifyRegistrationCode (now : Date.t) (email code : string)
| UpdateProfileData (data : ProfileData) (userId : Z)
| UpdateProfilePassword (p : PasswordChange) (userId : Z).

(** The tables a call leaves, fulfilled or rejected. *)
Definition handle `{Environment} (req : Request) (st : State) : State :=
  match req with
  | SignUp link email password => after (signUp link email password) st
  | Activate link => after (activate link) st
  | SignIn email password => after (signIn email password) st
  | Logout token => after (logout token) st
  | Refresh token => after (refresh token) st
  | SendRegistrationCode currentDate date code email =>
      after (sendRegistrationCode currentDate date code email) st
  | VerifyRegistrationCode now email code =>
      after (verifyRegistrationCode now email code) st
  | UpdateProfileData data userId => after (updateProfileData data userId) st
  | UpdateProfilePassword p userId =>
      after (updateProfilePassword p userId) st
  end.

(** Ann and Dan; Dan has not been activated and holds a session. *)
Definition dan : User.t :=
  User.mk "dan@example.org" "hash:hunter2" false "link-7"
          None None None None None None.

Definition twoAccounts : State :=
  mkState {[1 := ann "ann@example.org"; 7 := dan]} ∅
          {[1 := "refresh:ann@example.org"%string;
            7 := "refresh:dan@example.org"%string]}.

(** Which tables a method has a write to, read off its body. *)
Definition writesUsers (req : Request) : bool :=
  match req with
  | SignUp _ _ _ | Activate _ | UpdateProfileData _ _
  | UpdateProfilePassword _ _ => true
  | _ => false
  end.

Definition writesRegistrationCodes (req : Request) : bool :=
  match req with
  | SignUp _ _ _ | SendRegistrationCode _ _ _ _
  | VerifyRegistrationCode _ _ _ => true
  | _ => false
  end.

Definition writesTokens (req : Request) : bool :=
  match req with
  | SignUp _ _ _ | SignIn _ _ | Logout _ | Refresh _ => true
  | _ => false
  end.

(** The error a call is rejected with, if it is. *)
Definition errorOf {A : Type} (o : Outcome A) : option ApiError.t :=
  match o with
  | Fulfilled _ => None
  | Rejected e => Some e
  end.

Definition rejection `{Environment} (req : Request) (st : State)
    : option ApiError.t :=
  match req with
  | SignUp link email password =>
      errorOf (outcome (signUp link email password) st)
  | Activate link => errorOf (outcome (activate link) st)
  | SignIn email password => errorOf (outcome (signIn email password) st)
  | Logout token => errorOf (outcome (logout token) st)
  | Refresh token => errorOf (outcome (refresh token) st)
  | SendRegistrationCode currentDate date code email =>
      errorOf (outcome (sendRegistrationCode currentDate date code email) st)
  | VerifyRegistrationCode now email code =>
      errorOf (outcome (verifyRegistrationCode now email code) st)
  | UpdateProfileData data userId =>
      errorOf (outcome (updateProfileData data userId) st)
  | UpdateProfilePassword p userId =>
      errorOf (outcome (updateProfilePassword p userId) st)
  end.

(** * Properties *)

(** ** Tables *)
Section Tables.

Context {K V : Type} `{Countable K}.
Context (P : V → Prop) `{∀ v, Decision (P v)}.
Implicit Types (m : gmap K V).

Lemma findOne_Some m k v :
  findOne P m = Some (k, v) → m !! k = Some v ∧ P v.
Proof.
  unfold findOne. intros Hh.
  apply head_Some_elem_of in Hh.
  apply elem_of_map_to_list in Hh.
  by apply map_lookup_filter_Some in Hh.
Qed.

Lemma findOne_None m :
  findOne P m = None ↔ ∀ k v, m !! k = Some v → ¬ P v.
Proof.
  unfold findOne. rewrite head_None, map_to_list_empty_iff.
  split.
  - intros He k v Hk HP.
    assert (filter (λ kv, P kv.2) m !! k = Some v) as Hf
      by (apply map_lookup_filter_Some; done).
    rewrite He in Hf. by rewrite lookup_empty in Hf.
  - intros Hall. apply map_empty. intros k.
    destruct (filter (λ kv, P kv.2) m !! k) as [v|] eqn:Hf; [|done].
    apply map_lookup_filter_Some in Hf as [Hk HP]. by destruct (Hall k v).
Qed.

Lemma findOne_truthy m :
  truthy (findOne P m) = true ↔ ∃ k v, m !! k = Some v ∧ P v.
Proof.
  destruct (findOne P m) as [[k v]|] eqn:Hf; simpl.
  - split; [|done]. intros _. exists k, v. by apply findOne_Some.
  - split; [done|]. intros (k & v & Hk & HP).
    exfalso. eapply findOne_None; eauto.
Qed.

Lemma lookup_destroy m k v :
  destroy P m !! k = Some v ↔ m !! k = Some v ∧ ¬ P v.
Proof. unfold destroy. by rewrite map_lookup_filter_Some. Qed.

Lemma findOne_destroy m : findOne P (destroy P m) = None.
Proof.
  apply findOne_None. intros k v Hk HP.
  apply lookup_destroy in Hk as [_ Hn]. done.
Qed.

End Tables.

Lemma truthy_findOne_email email st :
  truthy (findOne (λ u, User.email u = email) (users st)) = true
  ↔ accountExists email st.
Proof. apply findOne_truthy. Qed.

Lemma truthy_findRefreshToken token st :
  truthy (findOne (λ t, t = token) (tokens st)) = true ↔ resolves token st.
Proof.
  rewrite findOne_truthy. unfold resolves. split.
  - intros (k & v & Hk & ->). eauto.
  - intros (k & Hk). eauto.
Qed.

Lemma truthy_false_iff {A : Type} (o : option A) (Q : Prop) :
  (truthy o = true ↔ Q) → ¬ Q → truthy o = false.
Proof. intros Hiff Hn. destruct (truthy o); [by destruct Hn; apply Hiff|done]. Qed.

(** Unfolding the plumbing of a method down to the tables. *)
Ltac run :=
  cbv beta iota zeta delta
    [outcome after await when read write resolve throw deref
     UserDto_fromModel
     UserModel.findOne_email UserModel.findOne_id UserModel.findByPk
     UserModel.create UserModel.update
     RegistrationCodeModel.findOne_email
     RegistrationCodeModel.findOne_email_otp
     RegistrationCodeModel.upsert RegistrationCodeModel.destroy_email
     RegistrationCodeModel.update
     TokenService.saveRefreshToken TokenService.findRefreshToken
     TokenService.removeRefreshToken byKey] in *.

(** Case analysis on the account lookup by email that opens [signUp] and
    [sendRegistrationCode]. *)
Ltac case_account email st Hacc Hfind :=
  match goal with
  | |- context [@truthy ?A ?x] =>
      pose proof (truthy_findOne_email email st
                  : @truthy A x = true ↔ accountExists email st) as Hacc;
      destruct (@truthy A x) eqn:Hfind
  end.

Lemma accountExists_dec email st :
  accountExists email st ∨ ¬ accountExists email st.
Proof.
  pose proof (truthy_findOne_email email st) as Hacc.
  destruct (truthy _); [left; by apply Hacc|right].
  intros Hex. apply Hacc in Hex. done.
Qed.

(** ** Profile *)

(** C9. For every user id and every input, [updateProfileData] leaves the
    stored password hash, activation flag and activation link of every
    account as they were: the account of [userId] gets the profile patch
    and nothing else, every other account, the code records and the
    refresh tokens are untouched, and no account appears or disappears. *)
Theorem updateProfileData_frame (data : ProfileData) (userId : Z) (st : State) :
  let st' := after (updateProfileData data userId) st in
  (∀ id u, users st !! id = Some u →
     ∃ u', users st' !! id = Some u'
       ∧ User.password u' = User.password u
       ∧ User.isActivated u' = User.isActivated u
       ∧ User.activationLink u' = User.activationLink u
       ∧ (id = userId → u' = setProfile data u)
       ∧ (id ≠ userId → u' = u))
  ∧ dom (users st') = dom (users st)
  ∧ registrationCodes st' = registrationCodes st
  ∧ tokens st' = tokens st.
Proof.
  unfold updateProfileData. run.
  destruct (users st !! userId) as [u0|] eqn:Hu0; simpl.
  - repeat split; try done.
    + intros id u Hid. destruct (decide (id = userId)) as [->|Hne].
      * rewrite lookup_insert_eq. rewrite Hu0 in Hid. injection Hid as <-.
        eexists; repeat split; done.
      * rewrite lookup_insert_ne by done.
        eexists; repeat split; done.
    + apply dom_insert_lookup_L. by rewrite Hu0.
  - repeat split; try done.
    intros id u Hid. exists u. repeat split; try done.
    intros ->. congruence.
Qed.

(** ** Registration gate: verification *)

(** The success path of [verifyRegistrationCode], as an equation. *)
Lemma verifyRegistrationCode_confirms (now : Date.t) (email code : string)
    (st : State) (c : RegistrationCode.t) :
  registrationCodes st !! email = Some c →
  RegistrationCode.otp c = code →
  now ≤ RegistrationCode.expiresIn c →
  verifyRegistrationCode now email code st
  = (Fulfilled (RegCodeDto.fromModel (email, setIsConfirmed true c)),
     setRegistrationCodes
       (<[email := setIsConfirmed true c]> (registrationCodes st)) st).
Proof.
  intros Hc Hotp Hle. unfold verifyRegistrationCode. run.
  rewrite Hc. simpl. rewrite decide_True by done. simpl.
  apply Z.ltb_ge in Hle. by rewrite Hle.
Qed.

(** C4. [verifyRegistrationCode email code] has three cases and no other:
    when no stored record matches both the email and the passcode it fails
    with InvalidCode ([isExpired = false]) and writes nothing; when the
    matching record's expiry lies before the current instant it fails with
    ExpiredCode ([isExpired = true]) and writes nothing; otherwise it
    stores the record as confirmed, leaves everything else alone, and
    returns the projection of the confirmed record. *)
Theorem verifyRegistrationCode_cases (now : Date.t) (email code : string)
    (st : State) :
  let r := verifyRegistrationCode now email code st in
  ((¬ ∃ c, registrationCodes st !! email = Some c
           ∧ RegistrationCode.otp c = code) →
     r = (Rejected (InvalidCode code), st))
  ∧ (∀ c, registrationCodes st !! email = Some c →
          RegistrationCode.otp c = code →
          RegistrationCode.expiresIn c < now →
          r = (Rejected (ExpiredCode code), st))
  ∧ (∀ c, registrationCodes st !! email = Some c →
          RegistrationCode.otp c = code →
          now ≤ RegistrationCode.expiresIn c →
          fst r = Fulfilled
                    (RegCodeDto.mkDto email (RegistrationCode.expiresIn c) true)
          ∧ registrationCodes (snd r) !! email = Some (setIsConfirmed true c)
          ∧ (∀ e, e ≠ email →
               registrationCodes (snd r) !! e = registrationCodes st !! e)
          ∧ users (snd r) = users st
          ∧ tokens (snd r) = tokens st).
Proof.
  unfold verifyRegistrationCode. run.
  destruct (registrationCodes st !! email) as [c0|] eqn:Hc0; simpl.
  - destruct (decide (RegistrationCode.otp c0 = code)) as [Hotp|Hotp]; simpl.
    + split; [|split].
      * intros Hno. destruct Hno. eauto.
      * intros c [= <-] _ Hlt.
        apply Z.ltb_lt in Hlt. by rewrite Hlt.
      * intros c [= <-] _ Hle.
        apply Z.ltb_ge in Hle. rewrite Hle. simpl.
        split; [done|]. split; [apply lookup_insert_eq|].
        split; [|done].
        intros e Hne. by apply lookup_insert_ne.
    + split; [done|]. split; intros c [= <-] Hc; done.
  - split; [done|]. split; intros c [=].
Qed.

(** ** Sign-up *)

Lemma confirmed_lookup email st :
  confirmed email st ↔
  match registrationCodes st !! email with
  | Some c => RegistrationCode.isConfirmed c = true
  | None => False
  end.
Proof.
  unfold confirmed. destruct (registrationCodes st !! email) as [c|].
  - split; [by intros (c' & [= <-] & Hc)|eauto].
  - split; [by intros (c' & [=] & _)|done].
Qed.

Lemma confirmed_dec email st : confirmed email st ∨ ¬ confirmed email st.
Proof.
  rewrite confirmed_lookup.
  destruct (registrationCodes st !! email) as [c|]; [|right; tauto].
  destruct (RegistrationCode.isConfirmed c); [by left|by right].
Qed.

(** The first check of [signUp]: the email is taken. *)
Lemma signUp_taken `{Environment} (link email password : string) (st : State) :
  accountExists email st →
  signUp link email password st
  = (Rejected (AlreadyRegistered "Ошибка регистрации" email), st).
Proof.
  intros Hex. unfold signUp. run.
  case_account email st Hacc Hfind; simpl; [done|].
  apply Hacc in Hex. done.
Qed.

(** The second check: the code record is missing or not confirmed. *)
Lemma signUp_unconfirmed `{Environment} (link email password : string)
    (st : State) :
  ¬ accountExists email st → ¬ confirmed email st →
  signUp link email password st
  = (Rejected (RegistrationNotConfirmed email), st).
Proof.
  intros Hno Hnc. rewrite confirmed_lookup in Hnc. unfold signUp. run.
  case_account email st Hacc Hfind; simpl.
  { destruct Hno. by apply Hacc. }
  destruct (registrationCodes st !! email) as [c|]; simpl; [|done].
  destruct (RegistrationCode.isConfirmed c); simpl; [by destruct Hnc|done].
Qed.

(** Past both checks [signUp] creates the account, deletes the code
    record, and saves the refresh token it returns. *)
Lemma signUp_creates `{Environment} (link email password : string)
    (st : State) :
  ¬ accountExists email st → confirmed email st →
  let id := fresh (dom (users st)) in
  let dto := UserDto.ofInstance (id, newAccount link email password) in
  signUp link email password st
  = (Fulfilled (mkSession (generateTokens dto) dto),
     mkState (<[id := newAccount link email password]> (users st))
             (delete email (registrationCodes st))
             (<[id := refreshToken (generateTokens dto)]> (tokens st))).
Proof.
  intros Hno Hc. rewrite confirmed_lookup in Hc. unfold signUp. run.
  case_account email st Hacc Hfind; simpl.
  { destruct Hno. by apply Hacc. }
  destruct (registrationCodes st !! email) as [c|]; simpl; [|done].
  rewrite Hc. done.
Qed.

(** C2. [signUp email password] succeeds if and only if no account has the
    email and the code record of the email exists and is confirmed.  On
    success the code record of the email is gone, a pre-activated account
    is stored under a key that was free, and the call returns the token
    pair issued for the projection of that account together with the
    projection, the refresh token being saved for the account.  When an
    account has the email the call fails with AlreadyRegistered whatever
    the code record says; a missing or unconfirmed record fails with
    RegistrationNotConfirmed only when no account has the email.  Both
    failures write nothing. *)
Theorem signUp_iff `{Environment} (link email password : string) (st : State) :
  let r := signUp link email password st in
  ((∃ s, fst r = Fulfilled s) ↔ ¬ accountExists email st ∧ confirmed email st)
  ∧ (∀ s, fst r = Fulfilled s →
       registrationCodes (snd r) !! email = None
       ∧ ∃ id, users st !! id = None
           ∧ users (snd r) !! id = Some (newAccount link email password)
           ∧ User.isActivated (newAccount link email password) = true
           ∧ user s = UserDto.ofInstance (id, newAccount link email password)
           ∧ UserDto.isActivated (user s) = true
           ∧ sessionTokens s = generateTokens (user s)
           ∧ tokens (snd r) !! id = Some (refreshToken (sessionTokens s)))
  ∧ (accountExists email st →
       r = (Rejected (AlreadyRegistered "Ошибка регистрации" email), st))
  ∧ (¬ accountExists email st → ¬ confirmed email st →
       r = (Rejected (RegistrationNotConfirmed email), st)).
Proof.
  intros r. subst r.
  destruct (accountExists_dec email st) as [Hex|Hno].
  { rewrite (signUp_taken link email password st Hex).
    split; [|split; [|split]]; [|done|done|done].
    split; [by intros [s [=]]|by intros [Hno _]]. }
  destruct (confirmed_dec email st) as [Hc|Hnc].
  - rewrite (signUp_creates link email password st Hno Hc). simpl.
    assert (users st !! fresh (dom (users st)) = None) as Hfresh.
    { apply not_elem_of_dom. apply is_fresh. }
    split; [|split; [|split]]; [| |done|done].
    + split; [done|eauto].
    + intros s [= <-]. simpl. split; [apply lookup_delete_eq|].
      exists (fresh (dom (users st))).
      repeat split; try done; apply lookup_insert_eq.
  - rewrite (signUp_unconfirmed link email password st Hno Hnc).
    split; [|split; [|split]]; [|done|done|done].
    split; [by intros [s [=]]|by intros [_ Hc]].
Qed.

(** ** Registration gate: issuance *)

(** What [sendRegistrationCode] does, by case: an existing account and a
    running cooldown reject without writing; otherwise the record is
    written, and the outcome is the one of the awaited mailer. *)
Lemma sendRegistrationCode_run `{Environment}
    (currentDate date : Date.t) (code email : string) (st : State) :
  let r := sendRegistrationCode currentDate date code email st in
  (accountExists email st →
     r = (Rejected (AlreadyRegistered "Ошибка отправки кода" email), st))
  ∧ (¬ accountExists email st →
     ∀ c, registrationCodes st !! email = Some c →
          currentDate < RegistrationCode.expiresIn c →
          r = (Rejected
                 (CooldownActive email
                    (Date.getSeconds (RegistrationCode.expiresIn c)
                     - Date.getSeconds currentDate)), st))
  ∧ (¬ accountExists email st → ¬ coolingDown currentDate email st →
     r = (if mailDelivered email code
          then Fulfilled (issuedDto date email)
          else Rejected MailError,
          setRegistrationCodes
            (<[email := issuedCode date code]> (registrationCodes st)) st)).
Proof.
  unfold sendRegistrationCode. run.
  case_account email st Hacc Hfind; simpl.
  { assert (accountExists email st) as Hex by by apply Hacc.
    split; [done|]. split; intros Hno; by destruct Hno. }
  assert (¬ accountExists email st) as Hno.
  { intros Hex. apply Hacc in Hex. done. }
  split; [done|].
  unfold coolingDown.
  destruct (registrationCodes st !! email) as [c|] eqn:Hc; simpl.
  - destruct (currentDate <? RegistrationCode.expiresIn c) eqn:Hlt; simpl.
    + apply Z.ltb_lt in Hlt. split.
      * by intros _ c' [= <-] _.
      * intros _ Hcd. destruct Hcd. eauto.
    + apply Z.ltb_ge in Hlt. split.
      * intros _ c' [= <-] Hlt'. lia.
      * intros _ _. by destruct (mailDelivered email code).
  - split; [by intros _ c' [=]|].
    intros _ _. by destruct (mailDelivered email code).
Qed.

Lemma sendRegistrationCode_taken `{Environment}
    (currentDate date : Date.t) (code email : string) (st : State) :
  accountExists email st →
  sendRegistrationCode currentDate date code email st
  = (Rejected (AlreadyRegistered "Ошибка отправки кода" email), st).
Proof. apply sendRegistrationCode_run. Qed.

Lemma sendRegistrationCode_cooling `{Environment}
    (currentDate date : Date.t) (code email : string) (st : State)
    (c : RegistrationCode.t) :
  ¬ accountExists email st →
  registrationCodes st !! email = Some c →
  currentDate < RegistrationCode.expiresIn c →
  sendRegistrationCode currentDate date code email st
  = (Rejected
       (CooldownActive email
          (Date.getSeconds (RegistrationCode.expiresIn c)
           - Date.getSeconds currentDate)), st).
Proof.
  intros Hno. revert c.
  by apply (sendRegistrationCode_run currentDate date code email st).
Qed.

Lemma sendRegistrationCode_writes `{Environment}
    (currentDate date : Date.t) (code email : string) (st : State) :
  ¬ accountExists email st → ¬ coolingDown currentDate email st →
  sendRegistrationCode currentDate date code email st
  = (if mailDelivered email code
     then Fulfilled (issuedDto date email)
     else Rejected MailError,
     setRegistrationCodes
       (<[email := issuedCode date code]> (registrationCodes st)) st).
Proof. apply sendRegistrationCode_run. Qed.

Lemma coolingDown_dec now email st :
  coolingDown now email st ∨ ¬ coolingDown now email st.
Proof.
  unfold coolingDown.
  destruct (registrationCodes st !! email) as [c|] eqn:Hc.
  - destruct (Z.lt_ge_cases now (RegistrationCode.expiresIn c)) as [Hlt|Hge].
    + left. eauto.
    + right. intros (c' & [= <-] & Hlt). lia.
  - right. by intros (c' & [=] & _).
Qed.

(** A fulfilled issuance went through both checks and the mailer. *)
Lemma sendRegistrationCode_fulfilled `{Environment}
    (currentDate date : Date.t) (code email : string) (st : State)
    (dto : RegCodeDto.t) :
  outcome (sendRegistrationCode currentDate date code email) st
    = Fulfilled dto →
  ¬ accountExists email st ∧ ¬ coolingDown currentDate email st
  ∧ mailDelivered email code = true.
Proof.
  pose proof (sendRegistrationCode_run currentDate date code email st)
    as (Hacc & Hcool & Hok).
  unfold outcome. intros Hout.
  destruct (accountExists_dec email st) as [Hex|Hno].
  { rewrite (Hacc Hex) in Hout. done. }
  destruct (coolingDown_dec currentDate email st) as [(c & Hc & Hlt)|Hnc].
  { rewrite (Hcool Hno c Hc Hlt) in Hout. done. }
  rewrite (Hok Hno Hnc) in Hout.
  by destruct (mailDelivered email code).
Qed.

(** Replacing the minutes field by the next minute moves the wall clock
    60000 ms ahead, whatever the field was; the instant the moved wall
    clock is read back as depends on the zone. *)
Lemma setMinutes_next (tza : Date.Zone) (d : Date.t) :
  Date.setMinutes tza d (Date.getMinutes tza d + 1)
  = Date.UTC tza (Date.LocalTime tza d + 60000).
Proof.
  unfold Date.setMinutes, Date.getMinutes. f_equal.
  set (l := Date.LocalTime tza d).
  unfold Date.MakeDate, Date.MakeTime, Date.Day, Date.HourFromTime,
    Date.MinFromTime, Date.SecFromTime, Date.msFromTime, Date.msPerDay,
    Date.msPerHour, Date.msPerMinute, Date.msPerSecond.
  pose proof (Z.div_mod l 1000 ltac:(lia)) as H0.
  pose proof (Z.div_mod (l / 1000) 60 ltac:(lia)) as H1.
  pose proof (Z.div_mod (l / 60000) 60 ltac:(lia)) as H2.
  pose proof (Z.div_mod (l / 3600000) 24 ltac:(lia)) as H3.
  assert (l / 1000 / 60 = l / 60000) as E1
    by (rewrite Z.div_div by lia; done).
  assert (l / 60000 / 60 = l / 3600000) as E2
    by (rewrite Z.div_div by lia; done).
  assert (l / 3600000 / 24 = l / 86400000) as E3
    by (rewrite Z.div_div by lia; done).
  rewrite E1 in H1. rewrite E2 in H2. rewrite E3 in H3. lia.
Qed.

Lemma issuedExpiry_eq `{Environment} (date : Date.t) :
  issuedExpiry date
  = date + localTZA date true + 60000
    - localTZA (date + localTZA date true + 60000) false.
Proof. unfold issuedExpiry. by rewrite setMinutes_next. Qed.


Lemma issuedExpiry_sameZone (E1 E2 : Environment) (date : Date.t) :
  sameZone E1 E2 →
  issuedExpiry (H := E1) date = issuedExpiry (H := E2) date.
Proof.
  intros Hz. rewrite (issuedExpiry_eq (H := E1)), (issuedExpiry_eq (H := E2)).
  by rewrite !Hz.
Qed.

(** An issuance that was fulfilled, or rejected by the mailer, went
    through both checks: the record has been written. *)
Lemma sendRegistrationCode_upserted `{Environment}
    (currentDate date : Date.t) (code email : string) (st : State)
    (dto : RegCodeDto.t) :
  outcome (sendRegistrationCode currentDate date code email) st
    = Fulfilled dto
  ∨ outcome (sendRegistrationCode currentDate date code email) st
    = Rejected MailError →
  ¬ accountExists email st ∧ ¬ coolingDown currentDate email st.
Proof.
  unfold outcome. intros Hout.
  destruct (accountExists_dec email st) as [Hex|Hno].
  { rewrite (sendRegistrationCode_taken _ _ _ _ st Hex) in Hout.
    by destruct Hout. }
  destruct (coolingDown_dec currentDate email st) as [(c & Hc & Hlt)|Hnc].
  { rewrite (sendRegistrationCode_cooling _ _ _ _ st c Hno Hc Hlt) in Hout.
    by destruct Hout. }
  done.
Qed.

(** C7 (the code at a failing input). In New York, in the wall-clock hour
    that the end of daylight saving time repeats, an issuance at 01:30
    (06:30 UTC) is fulfilled and stores, and returns, an expiry 59 minutes
    before the instant it read, not 60 seconds after it: the passcode it
    has just issued is refused as expired one second later.  Half a
    minute before the clock goes back, the expiry stored is 61 minutes
    ahead. *)
Theorem expiry_in_repeated_hour :
  let now := fallBack + 1800000 in
  let r := sendRegistrationCode (H := inZone newYork (demo true))
             now now "5678" "bob@example.org" bobConfirmed in
  let before := fallBack - 30000 in
  let r' := sendRegistrationCode (H := inZone newYork (demo true))
              before before "5678" "bob@example.org" bobConfirmed in
  fst r = Fulfilled (RegCodeDto.mkDto "bob@example.org" (now - 3540000) false)
  ∧ registrationCodes (snd r) !! "bob@example.org"
    = Some (RegistrationCode.mk "5678" (now - 3540000) false)
  ∧ verifyRegistrationCode (now + 1000) "bob@example.org" "5678" (snd r)
    = (Rejected (ExpiredCode "5678"), snd r)
  ∧ registrationCodes (snd r') !! "bob@example.org"
    = Some (RegistrationCode.mk "5678" (before + 3660000) false).
Proof. vm_compute. repeat split; reflexivity. Qed.

(** C10. An issuance that goes through both checks, whether the mailer
    then delivers or fails, stores the record of the email with
    [isConfirmed = false], whatever record (confirmed or not) the email
    had before: right after it the email is not confirmed and [signUp]
    for it fails with RegistrationNotConfirmed, writing nothing; once the
    new passcode has been verified, no later than the expiry that was
    stored, the email is confirmed again and [signUp] succeeds. *)
Theorem reissue_drops_confirmation `{Environment}
    (currentDate date : Date.t) (code email : string) (st : State)
    (dto : RegCodeDto.t) :
  outcome (sendRegistrationCode currentDate date code email) st
    = Fulfilled dto
  ∨ outcome (sendRegistrationCode currentDate date code email) st
    = Rejected MailError →
  let st' := after (sendRegistrationCode currentDate date code email) st in
  (∃ c, registrationCodes st' !! email = Some c
        ∧ RegistrationCode.otp c = code
        ∧ RegistrationCode.isConfirmed c = false)
  ∧ ¬ confirmed email st'
  ∧ (∀ link password,
       signUp link email password st'
       = (Rejected (RegistrationNotConfirmed email), st'))
  ∧ (∀ c now link password,
       registrationCodes st' !! email = Some c →
       now ≤ RegistrationCode.expiresIn c →
       let st'' := after (verifyRegistrationCode now email code) st' in
       confirmed email st''
       ∧ ∃ s, outcome (signUp link email password) st'' = Fulfilled s).
Proof.
  intros Hout.
  destruct (sendRegistrationCode_upserted _ _ _ _ _ _ Hout) as [Hno Hnc].
  unfold after.
  rewrite (sendRegistrationCode_writes currentDate date code email st Hno Hnc).
  simpl.
  set (st' := setRegistrationCodes _ st).
  assert (registrationCodes st' !! email = Some (issuedCode date code))
    as Hst' by apply lookup_insert_eq.
  assert (¬ accountExists email st') as Hno' by done.
  assert (¬ confirmed email st') as Hnc'.
  { rewrite confirmed_lookup, Hst'. done. }
  split; [eauto|]. split; [done|]. split.
  - intros link password. by apply signUp_unconfirmed.
  - intros c now link password Hc Hle.
    rewrite lookup_insert_eq in Hc. injection Hc as <-.
    rewrite (verifyRegistrationCode_confirms now email code st'
               (issuedCode date code) Hst' eq_refl Hle).
    simpl. set (st'' := setRegistrationCodes _ st').
    assert (confirmed email st'') as Hc''.
    { exists (setIsConfirmed true (issuedCode date code)).
      split; [apply lookup_insert_eq|done]. }
    split; [done|].
    assert (¬ accountExists email st'') as Hno'' by done.
    unfold outcome.
    rewrite (signUp_creates link email password st'' Hno'' Hc'').
    eauto.
Qed.

(** C10 at work: Bob had confirmed his former code; a new issuance, though
    the mailer fails it, leaves him unconfirmed until he verifies the new
    code. *)
Lemma reissue_drops_confirmation_witness :
  let st' := after (sendRegistrationCode (H := demo false)
                      80000 80250 "5678" "bob@example.org") bobConfirmed in
  (∃ c, registrationCodes st' !! "bob@example.org" = Some c
        ∧ RegistrationCode.otp c = "5678"
        ∧ RegistrationCode.isConfirmed c = false)
  ∧ ¬ confirmed "bob@example.org" st'
  ∧ (∀ link password,
       signUp (H := demo false) link "bob@example.org" password st'
       = (Rejected (RegistrationNotConfirmed "bob@example.org"), st'))
  ∧ (∀ c now link password,
       registrationCodes st' !! "bob@example.org" = Some c →
       now ≤ RegistrationCode.expiresIn c →
       let st'' :=
         after (verifyRegistrationCode now "bob@example.org" "5678") st' in
       confirmed "bob@example.org" st''
       ∧ ∃ s, outcome (signUp (H := demo false)
                         link "bob@example.org" password) st''
              = Fulfilled s).
Proof.
  apply (reissue_drops_confirmation (H := demo false)
           80000 80250 "5678" "bob@example.org" bobConfirmed
           (RegCodeDto.mkDto "bob@example.org" 140250 false)).
  right. vm_compute. reflexivity.
Defined.

(** C8 (as stated, refuted). The dispatch is awaited: on the same tables
    and the same input, in the same time zone, the issuance is fulfilled
    when the mailer delivers and rejected when it fails. *)
Lemma senderIndependent_fails :
  ¬ senderIndependent 80000 80250 "5678" "bob@example.org" bobConfirmed.
Proof.
  intros Hind. specialize (Hind (demo true) (demo false)).
  assert (sameZone (demo true) (demo false)) as Hz by done.
  specialize (Hind Hz). vm_compute in Hind. discriminate Hind.
Qed.

(** C8 (amended). The dispatch is awaited as the last step, after the
    upsert.  The tables an issuance leaves do not depend on the mailer;
    when the mailer fails on an issuance that passed both checks, the call
    is rejected with the mailer's error and the code record, with the
    expiry the issuance computed, is stored all the same; a rejection for
    any other reason is the same whatever the mailer does. *)
Theorem sendRegistrationCode_awaits_mailer
    (currentDate date : Date.t) (code email : string) (st : State) :
  (∀ E1 E2 : Environment, sameZone E1 E2 →
     after (sendRegistrationCode (H := E1) currentDate date code email) st
     = after (sendRegistrationCode (H := E2) currentDate date code email) st)
  ∧ (∀ E : Environment,
       ¬ accountExists email st → ¬ coolingDown currentDate email st →
       mailDelivered email code = false →
       sendRegistrationCode (H := E) currentDate date code email st
       = (Rejected MailError,
          setRegistrationCodes
            (<[email := RegistrationCode.mk code
                          (Date.setMinutes localTZA date
                             (Date.getMinutes localTZA date + 1)) false]>
               (registrationCodes st)) st))
  ∧ (∀ (E1 E2 : Environment) e, e ≠ MailError →
       outcome (sendRegistrationCode (H := E1) currentDate date code email) st
       = Rejected e →
       outcome (sendRegistrationCode (H := E2) currentDate date code email) st
       = Rejected e).
Proof.
  destruct (accountExists_dec email st) as [Hex|Hno].
  { split; [|split].
    - intros E1 E2 _. unfold after. by rewrite !sendRegistrationCode_taken.
    - intros E Hno. by destruct Hno.
    - intros E1 E2 e _. unfold outcome. by rewrite !sendRegistrationCode_taken. }
  destruct (coolingDown_dec currentDate email st) as [(c & Hc & Hlt)|Hnc].
  { split; [|split].
    - intros E1 E2 _. unfold after.
      by rewrite !(sendRegistrationCode_cooling _ _ _ _ _ c).
    - intros E _ Hnc. destruct Hnc. exists c. done.
    - intros E1 E2 e _. unfold outcome.
      by rewrite !(sendRegistrationCode_cooling _ _ _ _ _ c). }
  split; [|split].
  - intros E1 E2 Hz. unfold after. rewrite !sendRegistrationCode_writes by done.
    simpl. unfold issuedCode. by rewrite (issuedExpiry_sameZone E1 E2 date Hz).
  - intros E _ _ Hmail. by rewrite sendRegistrationCode_writes, Hmail.
  - intros E1 E2 e Hne. unfold outcome.
    rewrite (sendRegistrationCode_writes (H := E1)) by done. simpl.
    destruct (mailDelivered email code); [done|].
    intros [= <-]. done.
Qed.

(** C3 (the code at a failing input). Bob's code expires at 00:01:10; at
    00:00:30 the issuance is refused as cooling down, which is right, but
    the error reports -20 seconds, the difference of the two seconds
    fields, where 40 seconds are left. *)
Theorem cooldown_reports_seconds_fields :
  outcome (sendRegistrationCode (H := demo true)
             30000 30250 "5678" "bob@example.org") bobConfirmed
  = Rejected (CooldownActive "bob@example.org" (-20))
  ∧ Date.secondsUntil 30000 70000 = 40.
Proof. split; vm_compute; reflexivity. Qed.

(** ** Refresh *)

Lemma lookup_without (token : string) (st : State) (id : Z) (t : string) :
  without token st !! id = Some t ↔ tokens st !! id = Some t ∧ t ≠ token.
Proof. apply (lookup_destroy (λ t, t = token)). Qed.

Lemma refresh_empty `{Environment} (st : State) :
  refresh "" st = (Rejected Unauthorized, st).
Proof. done. Qed.

Lemma refresh_unknown `{Environment} (token : string) (st : State) :
  ¬ resolves token st → refresh token st = (Rejected Unauthorized, st).
Proof.
  intros Hnr. unfold refresh. run.
  destruct (nonEmpty token); simpl; [|done].
  rewrite (truthy_false_iff _ _ (truthy_findRefreshToken token st) Hnr).
  done.
Qed.

(** Past the two lookups the token is removed; what follows is decided by
    the signer and by the account table. *)
Lemma refresh_removes `{Environment} (token : string) (st : State) :
  token ≠ "" → resolves token st →
  refresh token st
  = match validateRefreshToken token with
    | None => (Rejected Unauthorized, setTokens (without token st) st)
    | Some userData =>
        match users st !! UserDto.id userData with
        | None => (Rejected TypeError, setTokens (without token st) st)
        | Some u =>
            let dto := UserDto.ofInstance (UserDto.id userData, u) in
            (Fulfilled (mkSession (generateTokens dto) dto),
             setTokens (<[UserDto.id userData :=
                            refreshToken (generateTokens dto)]>
                          (without token st)) st)
        end
    end.
Proof.
  intros Hne Hres. unfold refresh. run.
  unfold nonEmpty. rewrite bool_decide_false by done. simpl.
  apply truthy_findRefreshToken in Hres. rewrite Hres. simpl.
  destruct (validateRefreshToken token) as [userData|]; simpl; [|done].
  by destruct (users st !! UserDto.id userData) as [u|].
Qed.

Lemma without_resolves (token : string) (st : State) :
  ¬ resolves token (setTokens (without token st) st).
Proof.
  intros [id Hid]. simpl in Hid. apply lookup_without in Hid as [_ Hn]. done.
Qed.

Lemma saved_resolves (token token' : string) (id : Z) (st : State) :
  token' ≠ token →
  ¬ resolves token (setTokens (<[id := token']> (without token st)) st).
Proof.
  intros Hne [id' Hid']. simpl in Hid'.
  destruct (decide (id = id')) as [<-|Hids].
  - rewrite lookup_insert_eq in Hid'. congruence.
  - rewrite lookup_insert_ne in Hid' by done.
    apply lookup_without in Hid' as [_ Hn]. done.
Qed.




(** C1 (as stated, refuted). With a signer that derives the pair from the
    claims alone, Ann's stored and valid token is exchanged for the very
    same token, and exchanging it a second time succeeds again. *)
Lemma singleUse_fails :
  ¬ singleUse (H := demo true) "refresh:ann@example.org" signedIn.
Proof.
  intros Hsingle.
  destruct Hsingle as (s & Hfirst & Hdiff & _).
  - exists 1. vm_compute. reflexivity.
  - vm_compute. eauto.
  - vm_compute in Hfirst. injection Hfirst as <-.
    apply Hdiff. reflexivity.
Qed.

(** C1 (amended). For a non-empty refresh token that is stored, that the
    signer accepts and whose claims name an existing account, a first
    [refresh] succeeds and returns the pair the signer issues for the
    present projection of that account; a second [refresh] of the same
    token, run on the tables the first one left, fails with Unauthorized
    exactly when the refresh token just issued differs from it. *)
Theorem refresh_single_use `{Environment} (token : string) (st : State)
    (userData : UserDto.t) (u : User.t) :
  token ≠ "" → resolves token st →
  validateRefreshToken token = Some userData →
  users st !! UserDto.id userData = Some u →
  let dto := UserDto.ofInstance (UserDto.id userData, u) in
  let issued := generateTokens dto in
  outcome (refresh token) st = Fulfilled (mkSession issued dto)
  ∧ (outcome (refresh token) (after (refresh token) st)
     = Rejected Unauthorized
     ↔ refreshToken issued ≠ token).
Proof.
  intros Hne Hres Hvalid Hu dto issued.
  unfold outcome, after.
  rewrite (refresh_removes token st Hne Hres), Hvalid, Hu. simpl.
  fold dto. fold issued. split; [done|].
  set (st' := setTokens _ st).
  destruct (decide (refreshToken issued = token)) as [Heq|Hdiff].
  - (* the token is back in the table *)
    assert (resolves token st') as Hres'.
    { exists (UserDto.id userData). simpl. rewrite Heq.
      apply lookup_insert_eq. }
    rewrite (refresh_removes token st' Hne Hres'), Hvalid. simpl.
    rewrite Hu. simpl. split; [done|]. intros Hdiff. by destruct Hdiff.
  - rewrite (refresh_unknown token st'); [done|].
    by apply saved_resolves.
Qed.

(** C1 at work: Ann's token dates from before her change of email, so the
    signer issues a different one, and the old one is refused afterwards. *)
Lemma refresh_single_use_witness :
  outcome (refresh (H := demo true) "refresh:ann@old.org") signedInBeforeMove
  = Fulfilled
      (mkSession
         (mkTokens "access:ann@example.org" "refresh:ann@example.org")
         (UserDto.ofInstance (1, ann "ann@example.org")))
  ∧ outcome (refresh (H := demo true) "refresh:ann@old.org")
      (after (refresh (H := demo true) "refresh:ann@old.org")
         signedInBeforeMove)
    = Rejected Unauthorized.
Proof.
  destruct (refresh_single_use (H := demo true)
              "refresh:ann@old.org" signedInBeforeMove
              (UserDto.ofInstance (1, ann "ann@old.org"))
              (ann "ann@example.org")) as [Hfirst Hsecond].
  - discriminate.
  - exists 1. vm_compute. reflexivity.
  - reflexivity.
  - reflexivity.
  - split; [exact Hfirst|]. apply Hsecond. discriminate.
Defined.

(** ** Password change *)

(** The checks of [updateProfilePassword], in their order. *)
Lemma updateProfilePassword_run `{Environment} (p : PasswordChange)
    (userId : Z) (st : State) :
  updateProfilePassword p userId st
  = if decide (newPassword p = confirmNewPassword p) then
      match users st !! userId with
      | None => (Rejected TypeError, st)
      | Some u =>
          if bcrypt_compare (oldPassword p) (User.password u) then
            if bcrypt_compare (newPassword p) (User.password u) then
              (Rejected (NoOpChange (newPassword p)), st)
            else
              let u' := setPassword (bcrypt_hash (newPassword p) 7) u in
              (Fulfilled (UserDto.ofInstance (userId, u')),
               setUsers (<[userId := u']> (users st)) st)
          else (Rejected (InvalidCredentials (oldPassword p)), st)
      end
    else (Rejected (Mismatch (confirmNewPassword p)), st).
Proof.
  unfold updateProfilePassword. run.
  destruct (decide (newPassword p = confirmNewPassword p)) as [Heq|Hneq].
  - rewrite bool_decide_true by done. simpl.
    destruct (users st !! userId) as [u|]; simpl; [|done].
    destruct (bcrypt_compare (oldPassword p) (User.password u)); simpl;
      [|done].
    by destruct (bcrypt_compare (newPassword p) (User.password u)).
  - by rewrite bool_decide_false by done.
Qed.



(** ** The registration scenario, run

    Carol asks for a code, mistypes it, types it, and signs up: the wrong
    code is refused as invalid, the right one confirms the record, and
    sign-up returns an activated account and leaves no code record. *)
Example registration_scenario :
  let carol := "carol@example.org" in
  let st1 :=
    after (sendRegistrationCode (H := demo true) 1000 1250 "4321" carol)
      signedIn in
  let st2 := after (verifyRegistrationCode 2000 carol "0000") st1 in
  let st3 := after (verifyRegistrationCode 3000 carol "4321") st2 in
  let r := signUp (H := demo true) "link-2" carol "pw" st3 in
  outcome (verifyRegistrationCode 2000 carol "0000") st1
  = Rejected (InvalidCode "0000")
  ∧ outcome (verifyRegistrationCode 3000 carol "4321") st2
    = Fulfilled (RegCodeDto.mkDto carol 61250 true)
  ∧ outcome (verifyRegistrationCode 61251 carol "4321") st2
    = Rejected (ExpiredCode "4321")
  ∧ (∃ s, fst r = Fulfilled s
          ∧ UserDto.email (user s) = carol
          ∧ UserDto.isActivated (user s) = true
          ∧ refreshToken (sessionTokens s) = "refresh:carol@example.org")
  ∧ registrationCodes (snd r) !! carol = None
  ∧ outcome (signUp (H := demo true) "link-3" carol "pw") (snd r)
    = Rejected (AlreadyRegistered "Ошибка регистрации" carol).
Proof.
  vm_compute. repeat split; try reflexivity.
  eexists. repeat split; reflexivity.
Qed.

(** A password change that passes the three checks overwrites the hash,
    and only the hash, of the account. *)
Example password_change_run :
  let r := updateProfilePassword (H := demo true)
             (mkPasswordChange "secret" "s3cret" "s3cret") 1 signedIn in
  users (snd r) !! 1
  = Some (setPassword "hash:s3cret" (ann "ann@example.org"))
  ∧ fst r = Fulfilled (UserDto.ofInstance (1, ann "ann@example.org")).
Proof. vm_compute. split; reflexivity. Qed.

(** * Further properties of the service *)

(** ** Lookups *)

Lemma findOne_email_None email st :
  ¬ accountExists email st →
  findOne (λ u, User.email u = email) (users st) = None.
Proof.
  intros Hno. apply findOne_None. intros id u Hid He.
  apply Hno. by exists id, u.
Qed.

Lemma findOne_email_found email st :
  accountExists email st →
  ∃ id u, findOne (λ u, User.email u = email) (users st) = Some (id, u)
          ∧ users st !! id = Some u ∧ User.email u = email.
Proof.
  intros Hex. apply truthy_findOne_email in Hex.
  destruct (findOne _ (users st)) as [[id u]|] eqn:Hf; [|done].
  exists id, u. split; [done|]. by apply findOne_Some in Hf.
Qed.

Lemma findOne_email_sole id u st :
  users st !! id = Some u → soleOwner id (User.email u) st →
  findOne (λ u', User.email u' = User.email u) (users st) = Some (id, u).
Proof.
  intros Hid Hsole.
  destruct (findOne_email_found (User.email u) st) as (id' & u' & Hf & Hid' & He).
  { by exists id, u. }
  rewrite Hf. assert (id' = id) as -> by by apply (Hsole id' u').
  congruence.
Qed.

Lemma resolves_dec token st : resolves token st ∨ ¬ resolves token st.
Proof.
  pose proof (truthy_findRefreshToken token st) as Hres.
  destruct (truthy _); [left; by apply Hres|right].
  intros Hr. apply Hres in Hr. done.
Qed.

(** ** Sign-in *)

(** [signIn] by the row the lookup returns. *)
Lemma signIn_found `{Environment} (email password : string) (st : State)
    (id : Z) (u : User.t) :
  findOne (λ u, User.email u = email) (users st) = Some (id, u) →
  signIn email password st
  = if bcrypt_compare password (User.password u)
    then let dto := UserDto.ofInstance (id, u) in
         (Fulfilled (mkSession (generateTokens dto) dto),
          setTokens (<[id := refreshToken (generateTokens dto)]> (tokens st))
            st)
    else (Rejected (WrongPassword password), st).
Proof.
  intros Hf. unfold signIn. run. rewrite Hf. simpl.
  by destruct (bcrypt_compare password (User.password u)).
Qed.

Lemma signIn_no_account `{Environment} (email password : string)
    (st : State) :
  ¬ accountExists email st →
  signIn email password st = (Rejected (NotRegistered email), st).
Proof.
  intros Hno. unfold signIn. run.
  by rewrite (findOne_email_None email st Hno).
Qed.

(** X1. [signIn] is rejected as not registered exactly when no account has
    the email, whatever the password; the rejection writes nothing. *)
Theorem signIn_unregistered `{Environment} (email password : string)
    (st : State) :
  (outcome (signIn email password) st = Rejected (NotRegistered email)
   ↔ ¬ accountExists email st)
  ∧ (outcome (signIn email password) st = Rejected (NotRegistered email) →
       after (signIn email password) st = st).
Proof.
  unfold outcome, after.
  destruct (accountExists_dec email st) as [Hex|Hno].
  - destruct (findOne_email_found email st Hex) as (id & u & Hf & _).
    rewrite (signIn_found email password st id u Hf).
    destruct (bcrypt_compare password (User.password u)); simpl.
    + split; [split; [discriminate|done]|discriminate].
    + split; [split; [discriminate|done]|done].
  - rewrite (signIn_no_account email password st Hno). simpl.
    split; [done|done].
Qed.

(** X2. When an account has the email, [signIn] settles on one such
    account: if the password does not compare equal to its hash the call
    is rejected for the password and writes nothing; if it does, the call
    returns the pair issued for the projection of that account, saves the
    refresh token for it, and leaves accounts and code records alone.
    Whether the account is activated plays no part. *)
Theorem signIn_registered `{Environment} (email password : string)
    (st : State) :
  accountExists email st →
  ∃ id u, users st !! id = Some u ∧ User.email u = email
    ∧ (bcrypt_compare password (User.password u) = false →
         signIn email password st = (Rejected (WrongPassword password), st))
    ∧ (bcrypt_compare password (User.password u) = true →
         let dto := UserDto.ofInstance (id, u) in
         let r := signIn email password st in
         fst r = Fulfilled (mkSession (generateTokens dto) dto)
         ∧ tokens (snd r) !! id = Some (refreshToken (generateTokens dto))
         ∧ (∀ id', id' ≠ id → tokens (snd r) !! id' = tokens st !! id')
         ∧ users (snd r) = users st
         ∧ registrationCodes (snd r) = registrationCodes st).
Proof.
  intros Hex.
  destruct (findOne_email_found email st Hex) as (id & u & Hf & Hid & He).
  exists id, u. split; [done|]. split; [done|].
  rewrite (signIn_found email password st id u Hf).
  split; intros ->; [done|]. simpl.
  split; [done|]. split; [apply lookup_insert_eq|].
  split; [|done]. intros id' Hne. by apply lookup_insert_ne.
Qed.

Lemma signIn_registered_witness :
  ∃ id u, users twoAccounts !! id = Some u
    ∧ User.email u = "dan@example.org"
    ∧ (bcrypt_compare (Environment := demo true) "hunter2" (User.password u)
       = false →
         signIn (H := demo true) "dan@example.org" "hunter2" twoAccounts
         = (Rejected (WrongPassword "hunter2"), twoAccounts))
    ∧ (bcrypt_compare (Environment := demo true) "hunter2" (User.password u)
       = true →
         let dto := UserDto.ofInstance (id, u) in
         let r := signIn (H := demo true)
                    "dan@example.org" "hunter2" twoAccounts in
         fst r = Fulfilled
                   (mkSession (generateTokens (Environment := demo true) dto)
                              dto)
         ∧ tokens (snd r) !! id
           = Some (refreshToken
                     (generateTokens (Environment := demo true) dto))
         ∧ (∀ id', id' ≠ id →
              tokens (snd r) !! id' = tokens twoAccounts !! id')
         ∧ users (snd r) = users twoAccounts
         ∧ registrationCodes (snd r) = registrationCodes twoAccounts).
Proof.
  apply (signIn_registered (H := demo true)
           "dan@example.org" "hunter2" twoAccounts).
  exists 7, dan. split; reflexivity.
Defined.

(** ** Sign-up, then sign-in *)

Lemma signUp_fulfilled `{Environment} (link email password : string)
    (st : State) (s : Session) :
  outcome (signUp link email password) st = Fulfilled s →
  ¬ accountExists email st ∧ confirmed email st.
Proof.
  unfold outcome. intros Hout.
  destruct (accountExists_dec email st) as [Hex|Hno].
  { by rewrite (signUp_taken link email password st Hex) in Hout. }
  destruct (confirmed_dec email st) as [Hc|Hnc]; [done|].
  by rewrite (signUp_unconfirmed link email password st Hno Hnc) in Hout.
Qed.

(** The account a sign-up has created is the only one with its email. *)
Lemma signUp_sole `{Environment} (link email password : string) (st : State) :
  ¬ accountExists email st →
  soleOwner (fresh (dom (users st))) email
    (setUsers (<[fresh (dom (users st)) := newAccount link email password]>
                 (users st)) st).
Proof.
  intros Hno id' u' Hid' He. simpl in Hid'.
  destruct (decide (id' = fresh (dom (users st)))) as [->|Hne]; [done|].
  rewrite lookup_insert_ne in Hid' by done.
  destruct Hno. by exists id', u'.
Qed.

(** X3. After a successful [signUp email password], [signIn] with the same
    email is decided by the hasher alone: with a password that compares
    equal to the hash made at sign-up it succeeds and returns the
    projection sign-up returned, with any other it is rejected for the
    password and writes nothing. *)
Theorem signUp_then_signIn `{Environment} (link email password : string)
    (st : State) (s : Session) :
  outcome (signUp link email password) st = Fulfilled s →
  let st' := after (signUp link email password) st in
  ∀ attempt,
    (bcrypt_compare attempt (bcrypt_hash password 7) = true →
       ∃ s', outcome (signIn email attempt) st' = Fulfilled s'
             ∧ user s' = user s
             ∧ users (after (signIn email attempt) st') = users st')
    ∧ (bcrypt_compare attempt (bcrypt_hash password 7) = false →
         signIn email attempt st' = (Rejected (WrongPassword attempt), st')).
Proof.
  intros Hout.
  destruct (signUp_fulfilled _ _ _ _ _ Hout) as [Hno Hc].
  unfold outcome, after in *.
  rewrite (signUp_creates link email password st Hno Hc) in Hout |- *.
  simpl in *. injection Hout as <-.
  set (id := fresh (dom (users st))).
  set (st' := mkState _ _ _).
  intros attempt.
  assert (findOne (λ u, User.email u = email) (users st')
          = Some (id, newAccount link email password)) as Hf.
  { apply (findOne_email_sole id (newAccount link email password) st').
    - apply lookup_insert_eq.
    - apply (signUp_sole link email password st Hno). }
  rewrite (signIn_found email attempt st' id _ Hf). simpl.
  split; intros ->; [|done].
  eexists. simpl. done.
Qed.

(** X3 at work: Bob signs up and signs in with the same password. *)
Lemma signUp_then_signIn_witness :
  ∃ s', outcome (signIn (H := demo true) "bob@example.org" "pw")
          (after (signUp (H := demo true) "link-2" "bob@example.org" "pw")
             bobConfirmed)
        = Fulfilled s'
        ∧ UserDto.email (user s') = "bob@example.org".
Proof.
  destruct (signUp_then_signIn (H := demo true)
              "link-2" "bob@example.org" "pw" bobConfirmed
              (mkSession
                 (mkTokens "access:bob@example.org" "refresh:bob@example.org")
                 (UserDto.ofInstance
                    (2, newAccount (H := demo true)
                          "link-2" "bob@example.org" "pw")))
              eq_refl "pw") as [Hok _].
  destruct (Hok eq_refl) as (s' & Hs' & Hu & _).
  exists s'. split; [exact Hs'|]. rewrite Hu. reflexivity.
Defined.

(** ** Logout *)

Lemma logout_after (token : string) (st : State) :
  after (logout token) st = setTokens (without token st) st.
Proof. done. Qed.

(** X4. [logout] never rejects.  After it the token no longer resolves,
    every other stored token stays with its account, accounts and code
    records are untouched, and logging out the same token again changes
    nothing (an unknown token is not an error). *)
Theorem logout_removes (token : string) (st : State) :
  let st' := after (logout token) st in
  (∃ n, outcome (logout token) st = Fulfilled n)
  ∧ ¬ resolves token st'
  ∧ (∀ id t, t ≠ token → tokens st' !! id = Some t ↔ tokens st !! id = Some t)
  ∧ users st' = users st
  ∧ registrationCodes st' = registrationCodes st
  ∧ after (logout token) st' = st'
  ∧ (¬ resolves token st → st' = st).
Proof.
  intros st'. subst st'. rewrite !logout_after.
  split; [by eexists|]. split; [apply without_resolves|].
  split.
  { intros id t Hne. simpl. rewrite lookup_without.
    split; [by intros [Ht _]|by intros Ht]. }
  split; [done|]. split; [done|].
  assert (∀ st0 : State, ¬ resolves token st0 → without token st0 = tokens st0)
    as Hid.
  { intros st0 Hnr. apply map_eq. intros id.
    destruct (tokens st0 !! id) as [t|] eqn:Ht.
    - apply lookup_without. split; [done|].
      intros ->. apply Hnr. by exists id.
    - destruct (without token st0 !! id) as [t|] eqn:Hw; [|done].
      apply lookup_without in Hw as [Hw _]. congruence. }
  split.
  - rewrite (Hid (setTokens (without token st) st)); [done|].
    apply without_resolves.
  - intros Hnr. rewrite (Hid st Hnr). by destruct st.
Qed.

(** X5. A token that has been logged out cannot be refreshed: [refresh]
    of it is rejected with Unauthorized and writes nothing, whatever the
    signer thinks of the token. *)
Theorem logout_then_refresh `{Environment} (token : string) (st : State) :
  let st' := after (logout token) st in
  refresh token st' = (Rejected Unauthorized, st').
Proof.
  intros st'. apply refresh_unknown. subst st'. rewrite logout_after.
  apply without_resolves.
Qed.

(** ** Refresh: the two lookups *)

(** X6. [refresh] of the empty token, or of a token no account has stored,
    is rejected with Unauthorized before anything is written; the empty
    token is refused even if it is stored and the signer would accept
    it. *)
Theorem refresh_rejects_unwritten `{Environment} (token : string)
    (st : State) :
  token = "" ∨ ¬ resolves token st →
  refresh token st = (Rejected Unauthorized, st).
Proof.
  intros [->|Hnr]; [done|by apply refresh_unknown].
Qed.

Lemma refresh_rejects_unwritten_witness :
  refresh (H := demo true) "" (setTokens {[1 := ""%string]} signedIn)
  = (Rejected Unauthorized, setTokens {[1 := ""%string]} signedIn).
Proof.
  apply (refresh_rejects_unwritten (H := demo true)). left. reflexivity.
Defined.

(** ** Sign-in, then refresh *)

(** X7. The refresh token a successful [signIn] returns can be exchanged
    at once: if it is non-empty and the signer reads the claims of the
    account back from it, [refresh] of it succeeds and returns the
    projection of the same account. *)
Theorem signIn_then_refresh `{Environment} (email password : string)
    (st : State) (s : Session) (userData : UserDto.t) :
  outcome (signIn email password) st = Fulfilled s →
  refreshToken (sessionTokens s) ≠ "" →
  validateRefreshToken (refreshToken (sessionTokens s)) = Some userData →
  UserDto.id userData = UserDto.id (user s) →
  let st' := after (signIn email password) st in
  resolves (refreshToken (sessionTokens s)) st'
  ∧ ∃ s', outcome (refresh (refreshToken (sessionTokens s))) st' = Fulfilled s'
          ∧ user s' = user s.
Proof.
  intros Hout Hne Hvalid Hid.
  destruct (accountExists_dec email st) as [Hex|Hno].
  2:{ unfold outcome in Hout.
      by rewrite (signIn_no_account email password st Hno) in Hout. }
  destruct (findOne_email_found email st Hex) as (id & u & Hf & Hu & He).
  unfold outcome, after in *.
  rewrite (signIn_found email password st id u Hf) in Hout |- *.
  destruct (bcrypt_compare password (User.password u)); [|done].
  simpl in *. injection Hout as <-. simpl in *.
  set (dto := UserDto.ofInstance (id, u)) in *.
  set (st' := setTokens _ st).
  assert (resolves (refreshToken (generateTokens dto)) st') as Hres.
  { exists id. apply lookup_insert_eq. }
  split; [done|].
  rewrite (refresh_removes _ st' Hne Hres), Hvalid, Hid. simpl.
  rewrite Hu. simpl. eexists. split; [done|]. done.
Qed.

(** X7 at work: Ann signs in and exchanges the token she got. *)
Lemma signIn_then_refresh_witness :
  resolves "refresh:ann@example.org"
    (after (signIn (H := demo true) "ann@example.org" "secret") staleSession)
  ∧ ∃ s', outcome (refresh (H := demo true) "refresh:ann@example.org")
            (after (signIn (H := demo true) "ann@example.org" "secret")
               staleSession)
          = Fulfilled s'
          ∧ user s' = UserDto.ofInstance (1, ann "ann@example.org").
Proof.
  apply (signIn_then_refresh (H := demo true)
           "ann@example.org" "secret" staleSession
           (mkSession
              (mkTokens "access:ann@example.org" "refresh:ann@example.org")
              (UserDto.ofInstance (1, ann "ann@example.org")))
           (UserDto.ofInstance (1, ann "ann@example.org"))).
  - vm_compute. reflexivity.
  - discriminate.
  - reflexivity.
  - reflexivity.
Defined.

(** ** Activation *)

Lemma activate_run (link : string) (st : State) :
  activate link st
  = match findOne (λ u, User.activationLink u = link) (users st) with
    | None => (Rejected InvalidActivationLink, st)
    | Some (id, u) =>
        (Fulfilled tt,
         setUsers (<[id := setIsActivated true u]> (users st)) st)
    end.
Proof.
  unfold activate, UserModel.findOne_activationLink. run.
  by destruct (findOne _ (users st)) as [[id u]|].
Qed.

(** X8. [activate] with a link no account carries is rejected as an
    invalid activation link and writes nothing. *)
Theorem activate_unknown_link (link : string) (st : State) :
  ¬ linkIssued link st →
  activate link st = (Rejected InvalidActivationLink, st).
Proof.
  intros Hno. rewrite activate_run.
  destruct (findOne _ (users st)) as [[id u]|] eqn:Hf; [|done].
  apply findOne_Some in Hf as [Hid Hl]. destruct Hno. by exists id, u.
Qed.

Lemma activate_unknown_link_witness :
  activate "" twoAccounts = (Rejected InvalidActivationLink, twoAccounts).
Proof.
  apply activate_unknown_link.
  intros (id & u & Hid & Hl). unfold twoAccounts in Hid. simpl in Hid.
  destruct (decide (id = 1)) as [->|H1].
  { vm_compute in Hid. injection Hid as <-. discriminate Hl. }
  rewrite lookup_insert_ne in Hid by done.
  destruct (decide (id = 7)) as [->|H7].
  { vm_compute in Hid. injection Hid as <-. discriminate Hl. }
  rewrite lookup_singleton_ne in Hid by done. discriminate Hid.
Defined.

(** X9. [activate] with a link some account carries succeeds: it sets the
    activation flag of one account carrying the link and writes nothing
    else, neither another column nor another account nor another table.
    On an account that is activated already, as every account [signUp]
    creates is, it changes nothing. *)
Theorem activate_sets_flag (link : string) (st : State) :
  linkIssued link st →
  ∃ id u, users st !! id = Some u ∧ User.activationLink u = link
    ∧ activate link st
      = (Fulfilled tt,
         setUsers (<[id := setIsActivated true u]> (users st)) st)
    ∧ User.password (setIsActivated true u) = User.password u
    ∧ User.email (setIsActivated true u) = User.email u
    ∧ User.isActivated (setIsActivated true u) = true
    ∧ (User.isActivated u = true → after (activate link) st = st).
Proof.
  intros Hl. rewrite activate_run. unfold after. rewrite activate_run.
  destruct (findOne _ (users st)) as [[id u]|] eqn:Hf.
  - apply findOne_Some in Hf as [Hid Hlink].
    exists id, u. do 6 (split; [done|]).
    intros Hact. simpl.
    assert (setIsActivated true u = u) as ->.
    { destruct u. simpl in *. by subst. }
    rewrite insert_id by done. by destruct st.
  - destruct Hl as (id & u & Hid & Hlink).
    exfalso. eapply findOne_None; eauto.
Qed.

(** X9 at work: Dan follows his link. *)
Lemma activate_sets_flag_witness :
  ∃ id u, users twoAccounts !! id = Some u
    ∧ User.activationLink u = "link-7"
    ∧ activate "link-7" twoAccounts
      = (Fulfilled tt,
         setUsers (<[id := setIsActivated true u]> (users twoAccounts))
           twoAccounts)
    ∧ User.password (setIsActivated true u) = User.password u
    ∧ User.email (setIsActivated true u) = User.email u
    ∧ User.isActivated (setIsActivated true u) = true
    ∧ (User.isActivated u = true
       → after (activate "link-7") twoAccounts = twoAccounts).
Proof.
  apply (activate_sets_flag "link-7" twoAccounts).
  exists 7, dan. split; reflexivity.
Defined.

(** ** Registration gate: how issuance and verification compose *)

Lemma verifyRegistrationCode_run (now : Date.t) (email code : string)
    (st : State) :
  verifyRegistrationCode now email code st
  = match registrationCodes st !! email with
    | Some c =>
        if decide (RegistrationCode.otp c = code) then
          if RegistrationCode.expiresIn c <? now
          then (Rejected (ExpiredCode code), st)
          else (Fulfilled (RegCodeDto.fromModel (email, setIsConfirmed true c)),
                setRegistrationCodes
                  (<[email := setIsConfirmed true c]> (registrationCodes st))
                  st)
        else (Rejected (InvalidCode code), st)
    | None => (Rejected (InvalidCode code), st)
    end.
Proof.
  unfold verifyRegistrationCode. run.
  destruct (registrationCodes st !! email) as [c|]; simpl; [|done].
  destruct (decide (RegistrationCode.otp c = code)); simpl; [|done].
  by destruct (RegistrationCode.expiresIn c <? now).
Qed.

(** A fulfilled issuance: the tables it leaves and the projection it
    returns. *)
Lemma sendRegistrationCode_after `{Environment}
    (currentDate date : Date.t) (code email : string) (st : State)
    (dto : RegCodeDto.t) :
  outcome (sendRegistrationCode currentDate date code email) st
    = Fulfilled dto →
  ¬ accountExists email st
  ∧ after (sendRegistrationCode currentDate date code email) st
    = setRegistrationCodes
        (<[email := issuedCode date code]> (registrationCodes st)) st
  ∧ dto = issuedDto date email.
Proof.
  intros Hout.
  destruct (sendRegistrationCode_fulfilled _ _ _ _ _ _ Hout)
    as (Hno & Hnc & Hmail).
  unfold outcome, after in *.
  rewrite (sendRegistrationCode_writes currentDate date code email st)
    in Hout |- * by done.
  rewrite Hmail in Hout. simpl in Hout. injection Hout as <-. done.
Qed.



(** X11. After a fulfilled issuance the issued passcode is the only one
    that verifies: any other passcode, one that was valid before
    included, is rejected as invalid (not as expired); the issued one
    verifies up to and including the expiry the issuance returned and is
    rejected as expired after it; neither rejection writes anything. *)
Theorem issuance_replaces_code `{Environment}
    (currentDate date : Date.t) (code email : string) (st : State)
    (dto : RegCodeDto.t) :
  outcome (sendRegistrationCode currentDate date code email) st
    = Fulfilled dto →
  let st' := after (sendRegistrationCode currentDate date code email) st in
  let expiry := RegCodeDto.expiresIn dto in
  (∀ now other, other ≠ code →
     verifyRegistrationCode now email other st'
     = (Rejected (InvalidCode other), st'))
  ∧ (∀ now, expiry < now →
       verifyRegistrationCode now email code st'
       = (Rejected (ExpiredCode code), st'))
  ∧ (∀ now, now ≤ expiry →
       outcome (verifyRegistrationCode now email code) st'
       = Fulfilled (RegCodeDto.mkDto email expiry true)).
Proof.
  intros Hout st0 expiry. subst st0 expiry.
  destruct (sendRegistrationCode_after _ _ _ _ _ _ Hout) as (Hno & -> & ->).
  set (st' := setRegistrationCodes _ st). simpl.
  assert (registrationCodes st' !! email = Some (issuedCode date code))
    as Hc by apply lookup_insert_eq.
  split; [|split].
  - intros now other Hne. rewrite verifyRegistrationCode_run, Hc. simpl.
    by rewrite decide_False by done.
  - intros now Hlt. rewrite verifyRegistrationCode_run, Hc. simpl.
    rewrite decide_True by done. apply Z.ltb_lt in Hlt. by rewrite Hlt.
  - intros now Hle. unfold outcome.
    rewrite verifyRegistrationCode_run, Hc. simpl.
    rewrite decide_True by done. apply Z.ltb_ge in Hle. by rewrite Hle.
Qed.

(** X11 at work: Bob's former passcode 1234 is refused as invalid once 5678
    has been issued. *)
Lemma issuance_replaces_code_witness :
  outcome (verifyRegistrationCode 90000 "bob@example.org" "1234")
    (after (sendRegistrationCode (H := demo true)
              80000 80250 "5678" "bob@example.org") bobConfirmed)
  = Rejected (InvalidCode "1234").
Proof.
  destruct (issuance_replaces_code (H := demo true)
              80000 80250 "5678" "bob@example.org" bobConfirmed
              (RegCodeDto.mkDto "bob@example.org" 140250 false) eq_refl)
    as (Hother & _).
  unfold outcome. rewrite (Hother 90000 "1234"); [reflexivity|discriminate].
Defined.

(** X12. The instant of expiry belongs to both sides: at the instant equal
    to the stored expiry the passcode still verifies, and a new issuance
    is no longer held back (it rewrites the record with the new passcode,
    the expiry it computes and [isConfirmed = false], whatever the mailer
    does).  One millisecond earlier the issuance is still cooling down;
    one millisecond later the passcode has expired. *)
Theorem expiry_instant `{Environment} (email : string) (st : State)
    (c : RegistrationCode.t) :
  ¬ accountExists email st →
  registrationCodes st !! email = Some c →
  let expiry := RegistrationCode.expiresIn c in
  let code := RegistrationCode.otp c in
  outcome (verifyRegistrationCode expiry email code) st
  = Fulfilled (RegCodeDto.mkDto email expiry true)
  ∧ (∀ date code',
       registrationCodes
         (after (sendRegistrationCode expiry date code' email) st) !! email
       = Some (RegistrationCode.mk code'
                 (Date.setMinutes localTZA date
                    (Date.getMinutes localTZA date + 1)) false))
  ∧ (∀ date code',
       sendRegistrationCode (expiry - 1) date code' email st
       = (Rejected
            (CooldownActive email
               (Date.getSeconds expiry - Date.getSeconds (expiry - 1))), st))
  ∧ verifyRegistrationCode (expiry + 1) email code st
    = (Rejected (ExpiredCode code), st).
Proof.
  intros Hno Hc expiry code. subst expiry code.
  split; [|split; [|split]].
  - unfold outcome. rewrite verifyRegistrationCode_run, Hc.
    rewrite decide_True by done. by rewrite Z.ltb_irrefl.
  - intros date code'. unfold after.
    rewrite (sendRegistrationCode_writes _ date code' email st Hno).
    + apply lookup_insert_eq.
    + intros (c' & Hc' & Hlt). rewrite Hc in Hc'. injection Hc' as <-. lia.
  - intros date code'.
    apply (sendRegistrationCode_cooling _ date code' email st c Hno Hc). lia.
  - rewrite verifyRegistrationCode_run, Hc.
    rewrite decide_True by done.
    assert ((RegistrationCode.expiresIn c <? RegistrationCode.expiresIn c + 1)
            = true) as -> by (apply Z.ltb_lt; lia).
    done.
Qed.

Lemma no_bob_in_bobConfirmed : ¬ accountExists "bob@example.org" bobConfirmed.
Proof.
  intros (id & u & Hid & He). unfold bobConfirmed in Hid. simpl in Hid.
  destruct (decide (id = 1)) as [->|Hne].
  - vm_compute in Hid. injection Hid as <-. discriminate He.
  - rewrite lookup_singleton_ne in Hid by done. discriminate Hid.
Defined.

(** X12 at work, on Bob's record that expires at 00:01:10. *)
Lemma expiry_instant_witness :
  outcome (verifyRegistrationCode 70000 "bob@example.org" "1234") bobConfirmed
  = Fulfilled (RegCodeDto.mkDto "bob@example.org" 70000 true)
  ∧ verifyRegistrationCode 70001 "bob@example.org" "1234" bobConfirmed
    = (Rejected (ExpiredCode "1234"), bobConfirmed).
Proof.
  destruct (expiry_instant (H := demo true) "bob@example.org" bobConfirmed
              (RegistrationCode.mk "1234" 70000 true)
              no_bob_in_bobConfirmed eq_refl)
    as (Hverify & _ & _ & Hlate).
  split; [exact Hverify|exact Hlate].
Defined.

(** X13. The seconds a cooldown error reports are the difference of two
    seconds fields.  They lie between -59 and 59.  Against the whole
    seconds left until the expiry ([Date.secondsUntil]), they are
    congruent modulo 60 to the difference of the two instants counted in
    whole seconds, which is the whole seconds left or one more; and they
    equal that difference, hence are the whole seconds left or one more
    and not negative, exactly when both instants lie in the same minute
    of the clock. *)
Theorem cooldown_seconds_range `{Environment}
    (currentDate date : Date.t) (code email : string) (st : State)
    (c : RegistrationCode.t) :
  ¬ accountExists email st →
  registrationCodes st !! email = Some c →
  currentDate < RegistrationCode.expiresIn c →
  let expiry := RegistrationCode.expiresIn c in
  let left := Date.secondsUntil currentDate expiry in
  let counted := expiry / 1000 - currentDate / 1000 in
  ∃ n, outcome (sendRegistrationCode currentDate date code email) st
       = Rejected (CooldownActive email n)
    ∧ -59 ≤ n ≤ 59
    ∧ 0 ≤ left ≤ counted ∧ counted ≤ left + 1
    ∧ (counted - n) mod 60 = 0
    ∧ (n = counted ↔ expiry / 60000 = currentDate / 60000)
    ∧ (n = left ∨ n = left + 1 ↔ expiry / 60000 = currentDate / 60000).
Proof.
  intros Hno Hc Hlt expiry left counted. subst expiry left counted.
  set (e := RegistrationCode.expiresIn c) in *.
  exists (Date.getSeconds e - Date.getSeconds currentDate).
  split.
  { unfold outcome.
    by rewrite (sendRegistrationCode_cooling currentDate date code email st c). }
  unfold Date.getSeconds, Date.secondsUntil.
  pose proof (Z.mod_pos_bound (e / 1000) 60 ltac:(lia)) as He.
  pose proof (Z.mod_pos_bound (currentDate / 1000) 60 ltac:(lia)) as Hn.
  pose proof (Z.div_mod (e / 1000) 60 ltac:(lia)) as Hde.
  pose proof (Z.div_mod (currentDate / 1000) 60 ltac:(lia)) as Hdn.
  pose proof (Z.div_mod e 1000 ltac:(lia)) as Hqe.
  pose proof (Z.div_mod currentDate 1000 ltac:(lia)) as Hqn.
  pose proof (Z.div_mod (e - currentDate) 1000 ltac:(lia)) as Hql.
  pose proof (Z.mod_pos_bound e 1000 ltac:(lia)) as Hre.
  pose proof (Z.mod_pos_bound currentDate 1000 ltac:(lia)) as Hrn.
  pose proof (Z.mod_pos_bound (e - currentDate) 1000 ltac:(lia)) as Hrl.
  assert (e / 60000 = e / 1000 / 60) as Hme
    by (rewrite Z.div_div by lia; done).
  assert (currentDate / 60000 = currentDate / 1000 / 60) as Hmn
    by (rewrite Z.div_div by lia; done).
  split; [lia|]. split; [lia|]. split; [lia|]. split.
  { replace (e / 1000 - currentDate / 1000
             - ((e / 1000) mod 60 - (currentDate / 1000) mod 60))
      with ((e / 1000 / 60 - currentDate / 1000 / 60) * 60) by lia.
    apply Z.mod_mul. lia. }
  rewrite Hme, Hmn. split; lia.
Qed.

(** X13 at work: 40 whole seconds are left, -20 is reported. *)
Lemma cooldown_seconds_range_witness :
  ∃ n, outcome (sendRegistrationCode (H := demo true)
                  30000 30250 "5678" "bob@example.org") bobConfirmed
       = Rejected (CooldownActive "bob@example.org" n)
    ∧ -59 ≤ n ≤ 59
    ∧ Date.secondsUntil 30000 70000 = 40
    ∧ n ≠ 40.
Proof.
  destruct (cooldown_seconds_range (H := demo true)
              30000 30250 "5678" "bob@example.org" bobConfirmed
              (RegistrationCode.mk "1234" 70000 true)
              no_bob_in_bobConfirmed eq_refl eq_refl)
    as (n & Hout & Hrange & _ & _ & _ & Hsame & _).
  exists n. split; [exact Hout|]. split; [exact Hrange|].
  split; [reflexivity|].
  intros ->. destruct Hsame as [Hsame _].
  specialize (Hsame eq_refl). vm_compute in Hsame. discriminate Hsame.
Defined.

(** X14. Verification does not use the passcode up: after a successful
    [verifyRegistrationCode], verifying the same passcode again, at any
    instant up to the expiry, succeeds with the same projection and leaves
    the tables exactly as the first verification left them; passcode and
    expiry of the record are the ones it had. *)
Theorem verification_repeats (now now' : Date.t) (email code : string)
    (st : State) (dto : RegCodeDto.t) :
  outcome (verifyRegistrationCode now email code) st = Fulfilled dto →
  let st' := after (verifyRegistrationCode now email code) st in
  (∃ c, registrationCodes st !! email = Some c
        ∧ registrationCodes st' !! email = Some (setIsConfirmed true c)
        ∧ (now' ≤ RegistrationCode.expiresIn c →
             verifyRegistrationCode now' email code st' = (Fulfilled dto, st'))).
Proof.
  intros Hout st'. subst st'. unfold outcome, after in *.
  rewrite verifyRegistrationCode_run in Hout |- *.
  destruct (registrationCodes st !! email) as [c|] eqn:Hc; [|done].
  destruct (decide (RegistrationCode.otp c = code)) as [Hotp|]; [|done].
  destruct (RegistrationCode.expiresIn c <? now) eqn:Hnow; [done|].
  simpl in *. injection Hout as <-.
  exists c. split; [done|]. split; [apply lookup_insert_eq|].
  intros Hle. rewrite verifyRegistrationCode_run. simpl.
  rewrite lookup_insert_eq. simpl. rewrite decide_True by done.
  apply Z.ltb_ge in Hle. rewrite Hle.
  unfold setRegistrationCodes. simpl. by rewrite insert_insert_eq.
Qed.

(** X14 at work: Bob verifies 1234 at 00:01:00 and again at 00:01:10. *)
Lemma verification_repeats_witness :
  let st' :=
    after (verifyRegistrationCode 60000 "bob@example.org" "1234")
      bobConfirmed in
  verifyRegistrationCode 70000 "bob@example.org" "1234" st'
  = (Fulfilled (RegCodeDto.mkDto "bob@example.org" 70000 true), st').
Proof.
  destruct (verification_repeats 60000 70000 "bob@example.org" "1234"
              bobConfirmed (RegCodeDto.mkDto "bob@example.org" 70000 true)
              eq_refl) as (c & Hc & _ & Hagain).
  vm_compute in Hc. injection Hc as <-.
  apply Hagain. simpl. lia.
Defined.

(** X15. A successful [signUp] closes the gate for its email: the code
    record is gone, so any passcode for the email is rejected as invalid;
    a request for a new passcode and a second sign-up are both rejected
    because the account exists; none of the three writes anything. *)
Theorem signUp_closes_gate `{Environment} (link email password : string)
    (st : State) (s : Session) :
  outcome (signUp link email password) st = Fulfilled s →
  let st' := after (signUp link email password) st in
  accountExists email st'
  ∧ (∀ now code,
       verifyRegistrationCode now email code st'
       = (Rejected (InvalidCode code), st'))
  ∧ (∀ currentDate date code,
       sendRegistrationCode currentDate date code email st'
       = (Rejected (AlreadyRegistered "Ошибка отправки кода" email), st'))
  ∧ (∀ link' password',
       signUp link' email password' st'
       = (Rejected (AlreadyRegistered "Ошибка регистрации" email), st')).
Proof.
  intros Hout st'. subst st'.
  destruct (signUp_fulfilled _ _ _ _ _ Hout) as [Hno Hc].
  unfold after. rewrite (signUp_creates link email password st Hno Hc).
  simpl. set (st' := mkState _ _ _).
  assert (accountExists email st') as Hex.
  { exists (fresh (dom (users st))), (newAccount link email password).
    split; [apply lookup_insert_eq|done]. }
  split; [done|]. split; [|split].
  - intros now code. rewrite verifyRegistrationCode_run. simpl.
    by rewrite lookup_delete_eq.
  - intros currentDate date code. by apply sendRegistrationCode_taken.
  - intros link' password'. by apply signUp_taken.
Qed.

(** X15 at work: Bob has signed up. *)
Lemma signUp_closes_gate_witness :
  let st' := after (signUp (H := demo true) "link-2" "bob@example.org" "pw")
               bobConfirmed in
  accountExists "bob@example.org" st'
  ∧ (∀ now code,
       verifyRegistrationCode now "bob@example.org" code st'
       = (Rejected (InvalidCode code), st'))
  ∧ (∀ currentDate date code,
       sendRegistrationCode (H := demo true)
         currentDate date code "bob@example.org" st'
       = (Rejected
            (AlreadyRegistered "Ошибка отправки кода" "bob@example.org"), st'))
  ∧ (∀ link' password',
       signUp (H := demo true) link' "bob@example.org" password' st'
       = (Rejected
            (AlreadyRegistered "Ошибка регистрации" "bob@example.org"), st')).
Proof.
  apply (signUp_closes_gate (H := demo true)
           "link-2" "bob@example.org" "pw" bobConfirmed
           (mkSession
              (mkTokens "access:bob@example.org" "refresh:bob@example.org")
              (UserDto.ofInstance
                 (2, newAccount (H := demo true)
                       "link-2" "bob@example.org" "pw")))).
  reflexivity.
Defined.

(** ** What every method keeps *)

(** Splitting a method into its paths: every lookup and every test is
    taken both ways. *)
Ltac paths :=
  unfold handle, rejection, errorOf, signUp, activate, signIn, logout,
    refresh, sendRegistrationCode, verifyRegistrationCode,
    updateProfileData, updateProfilePassword,
    UserModel.findOne_activationLink;
  run; repeat (case_match; simpl in *); simplify_eq.

(** X16. A method writes only the tables its body has a write to: the
    accounts are written by sign-up, activation and the two profile
    methods only, the code records by sign-up, issuance and verification
    only, the refresh tokens by sign-up, sign-in, logout and refresh only.
    In particular a password change revokes no refresh token. *)
Theorem method_footprint `{Environment} (req : Request) (st : State) :
  (writesUsers req = false → users (handle req st) = users st)
  ∧ (writesRegistrationCodes req = false →
       registrationCodes (handle req st) = registrationCodes st)
  ∧ (writesTokens req = false → tokens (handle req st) = tokens st).
Proof.
  destruct req; simpl; (split; [|split]); intros Hw; try discriminate Hw;
    clear Hw; paths; done.
Qed.

Lemma updateProfileData_run (data : ProfileData) (userId : Z) (st : State) :
  updateProfileData data userId st
  = match users st !! userId with
    | None => (Rejected TypeError, st)
    | Some u =>
        (Fulfilled (UserDto.ofInstance (userId, setProfile data u)),
         setUsers (<[userId := setProfile data u]> (users st)) st)
    end.
Proof.
  unfold updateProfileData. run.
  by destruct (users st !! userId) as [u|].
Qed.

(** X17. No method removes an account, changes its activation link, or
    takes its activation back.  The password hash of an account is
    changed by a password change for that account only, and its email by
    a profile update for that account only. *)
Theorem accounts_persist `{Environment} (req : Request) (st : State)
    (id : Z) (u : User.t) :
  users st !! id = Some u →
  ∃ u', users (handle req st) !! id = Some u'
    ∧ User.activationLink u' = User.activationLink u
    ∧ (User.isActivated u = true → User.isActivated u' = true)
    ∧ (User.password u' ≠ User.password u →
         ∃ p, req = UpdateProfilePassword p id)
    ∧ (User.email u' ≠ User.email u → ∃ d, req = UpdateProfileData d id).
Proof.
  intros Hid.
  destruct req as [link email password|link| | | | | |data userId|p userId].
  - (* signUp: the new account takes a key that was free *)
    simpl. unfold after.
    destruct (accountExists_dec email st) as [Hex|Hno].
    { rewrite (signUp_taken link email password st Hex).
      exists u. repeat split; done. }
    destruct (confirmed_dec email st) as [Hc|Hnc].
    2:{ rewrite (signUp_unconfirmed link email password st Hno Hnc).
        exists u. repeat split; done. }
    rewrite (signUp_creates link email password st Hno Hc). simpl.
    assert (fresh (dom (users st)) ≠ id) as Hne.
    { intros <-. apply (is_fresh (dom (users st))).
      apply elem_of_dom. by rewrite Hid. }
    rewrite lookup_insert_ne by done.
    exists u. repeat split; done.
  - (* activate: the flag of the account found is set *)
    simpl. unfold after. rewrite activate_run.
    destruct (findOne _ (users st)) as [[id0 u0]|] eqn:Hf; simpl.
    2:{ exists u. repeat split; done. }
    apply findOne_Some in Hf as [Hid0 _].
    destruct (decide (id0 = id)) as [->|Hne].
    + rewrite lookup_insert_eq. rewrite Hid in Hid0. injection Hid0 as <-.
      eexists. repeat split; done.
    + rewrite lookup_insert_ne by done. exists u. repeat split; done.
  - paths; exists u; repeat split; done.
  - paths; exists u; repeat split; done.
  - paths; exists u; repeat split; done.
  - paths; exists u; repeat split; done.
  - paths; exists u; repeat split; done.
  - (* updateProfileData *)
    simpl. unfold after. rewrite updateProfileData_run.
    destruct (users st !! userId) as [u0|] eqn:Hu0; simpl.
    2:{ exists u. repeat split; done. }
    destruct (decide (userId = id)) as [->|Hne].
    + rewrite lookup_insert_eq. rewrite Hid in Hu0. injection Hu0 as <-.
      eexists. repeat split; try done. intros _. by exists data.
    + rewrite lookup_insert_ne by done. exists u. repeat split; done.
  - (* updateProfilePassword *)
    simpl. unfold after. rewrite updateProfilePassword_run.
    destruct (decide (newPassword p = confirmNewPassword p));
      [|exists u; repeat split; done].
    destruct (users st !! userId) as [u0|] eqn:Hu0;
      [|exists u; repeat split; done].
    destruct (bcrypt_compare (oldPassword p) (User.password u0));
      [|exists u; repeat split; done].
    destruct (bcrypt_compare (newPassword p) (User.password u0));
      [exists u; repeat split; done|].
    simpl. destruct (decide (userId = id)) as [->|Hne].
    + rewrite lookup_insert_eq. rewrite Hid in Hu0. injection Hu0 as <-.
      eexists. repeat split; try done. intros _. by exists p.
    + rewrite lookup_insert_ne by done. exists u. repeat split; done.
Qed.

(** X17 at work: Dan changes his password; Ann's account is as it was. *)
Lemma accounts_persist_witness :
  users
    (handle (H := demo true)
       (UpdateProfilePassword (mkPasswordChange "hunter2" "hunter3" "hunter3")
          7) twoAccounts) !! 1
  = Some (ann "ann@example.org").
Proof.
  destruct (accounts_persist (H := demo true)
              (UpdateProfilePassword
                 (mkPasswordChange "hunter2" "hunter3" "hunter3") 7)
              twoAccounts 1 (ann "ann@example.org") eq_refl)
    as (u' & Hu' & _).
  rewrite Hu'. vm_compute in Hu'. exact (eq_sym Hu').
Defined.

(** X18. Every error the service itself raises with [throw], a BadRequest
    or an Unauthorized, is raised before the first write of its method:
    the call leaves the three tables exactly as they were.  The one
    exception is the Unauthorized that [refresh] throws when the signer
    refuses the token, which comes after the token's removal.  (A
    rejection that comes from an awaited collaborator, a store or the
    mailer, is not one of these.) *)
Theorem thrown_before_writing `{Environment} (req : Request) (st : State)
    (e : ApiError.t) :
  rejection req st = Some e →
  (∃ message errors, e = BadRequest message errors) ∨ e = UnauthorizedError →
  match req with
  | Refresh token =>
      handle req st = st
      ∨ (token ≠ "" ∧ resolves token st
         ∧ validateRefreshToken token = None
         ∧ handle req st = setTokens (without token st) st)
  | _ => handle req st = st
  end.
Proof.
  destruct req as [| | | |token|currentDate date code email| | |].
  1-4, 7-9: paths; intros; try done; naive_solver.
  - (* refresh *)
    simpl. unfold outcome, after. intros Hrej Hkind.
    destruct (decide (token = "")) as [->|Hne]; [by left|].
    destruct (resolves_dec token st) as [Hres|Hnr].
    2:{ rewrite (refresh_unknown token st Hnr). by left. }
    rewrite (refresh_removes token st Hne Hres) in Hrej |- *.
    destruct (validateRefreshToken token) as [userData|]; simpl in *.
    + destruct (users st !! UserDto.id userData); simpl in *; [done|].
      injection Hrej as <-. destruct Hkind as [(m & l & [=])|[=]].
    + right. done.
  - (* sendRegistrationCode *)
    simpl. unfold outcome, after. intros Hrej Hkind.
    destruct (accountExists_dec email st) as [Hex|Hno].
    { by rewrite (sendRegistrationCode_taken _ _ _ _ st Hex). }
    destruct (coolingDown_dec currentDate email st) as [(c & Hc & Hlt)|Hnc].
    { by rewrite (sendRegistrationCode_cooling _ _ _ _ st c Hno Hc Hlt). }
    rewrite (sendRegistrationCode_writes _ _ _ _ st Hno Hnc) in Hrej.
    simpl in Hrej. destruct (mailDelivered email code); simpl in Hrej; [done|].
    injection Hrej as <-. destruct Hkind as [(m & l & [=])|[=]].
Qed.

(** X18 at work: the signer refuses Ann's stored token; the Unauthorized
    comes after the removal. *)
Lemma thrown_before_writing_witness :
  handle (H := demo true) (Refresh "refresh:stale") staleSession
  = setTokens (without "refresh:stale" staleSession) staleSession.
Proof.
  destruct (thrown_before_writing (H := demo true)
              (Refresh "refresh:stale") staleSession UnauthorizedError
              eq_refl (or_intror eq_refl))
    as [Hsame|(_ & _ & _ & Hremoved)].
  - vm_compute in Hsame. discriminate Hsame.
  - exact Hremoved.
Defined.

(** ** Profile methods: edge and composition *)

(** X19. On a user id no account has, both profile methods fail with a
    TypeError (a property of [null] is read) and write nothing; the
    password method does so only past its first check, which needs no
    account: differing new passwords are rejected as a mismatch before the
    account is looked up. *)
Theorem profile_methods_missing_account `{Environment} (data : ProfileData)
    (p : PasswordChange) (userId : Z) (st : State) :
  users st !! userId = None →
  updateProfileData data userId st = (Rejected TypeError, st)
  ∧ (newPassword p = confirmNewPassword p →
       updateProfilePassword p userId st = (Rejected TypeError, st))
  ∧ (newPassword p ≠ confirmNewPassword p →
       updateProfilePassword p userId st
       = (Rejected (Mismatch (confirmNewPassword p)), st)).
Proof.
  intros Hnone. rewrite updateProfileData_run, updateProfilePassword_run, Hnone.
  split; [done|]. split; intros Hp.
  - by rewrite decide_True by done.
  - by rewrite decide_False by done.
Qed.

Lemma profile_methods_missing_account_witness :
  updateProfileData
    (mkProfileData None (Some (Some "Eve")) None None None None None)
    5 twoAccounts
  = (Rejected TypeError, twoAccounts)
  ∧ updateProfilePassword (H := demo true)
      (mkPasswordChange "a" "b" "b") 5 twoAccounts
    = (Rejected TypeError, twoAccounts).
Proof.
  destruct (profile_methods_missing_account (H := demo true)
              (mkProfileData None (Some (Some "Eve")) None None None None None)
              (mkPasswordChange "a" "b" "b") 5 twoAccounts eq_refl)
    as (Hdata & Hpass & _).
  split; [exact Hdata|]. apply Hpass. reflexivity.
Defined.

Lemma soleOwner_insert (id : Z) (u u' : User.t) (st : State) :
  users st !! id = Some u → User.email u' = User.email u →
  soleOwner id (User.email u) st →
  soleOwner id (User.email u') (setUsers (<[id := u']> (users st)) st).
Proof.
  intros Hid He Hsole id' v Hid' Hv. simpl in Hid'.
  destruct (decide (id' = id)) as [->|Hne]; [done|].
  rewrite lookup_insert_ne in Hid' by done.
  apply (Hsole id' v Hid'). congruence.
Qed.

(** X20. After a successful password change, [signIn] under the email of
    the account is decided by the new hash alone: an attempt that compares
    equal to it succeeds and returns the projection the change returned,
    any other attempt (the old password as well, if the hasher tells the
    two apart) is rejected for the password and writes nothing. *)
Theorem password_change_then_signIn `{Environment} (p : PasswordChange)
    (userId : Z) (st : State) (u : User.t) (d : UserDto.t) :
  users st !! userId = Some u →
  soleOwner userId (User.email u) st →
  outcome (updateProfilePassword p userId) st = Fulfilled d →
  let st' := after (updateProfilePassword p userId) st in
  ∀ attempt,
    (bcrypt_compare attempt (bcrypt_hash (newPassword p) 7) = true →
       ∃ s, outcome (signIn (User.email u) attempt) st' = Fulfilled s
            ∧ user s = d)
    ∧ (bcrypt_compare attempt (bcrypt_hash (newPassword p) 7) = false →
         signIn (User.email u) attempt st'
         = (Rejected (WrongPassword attempt), st')).
Proof.
  intros Hu Hsole Hout st'. subst st'. unfold outcome, after in *.
  rewrite updateProfilePassword_run, Hu in Hout |- *.
  destruct (decide (newPassword p = confirmNewPassword p)); [|done].
  destruct (bcrypt_compare (oldPassword p) (User.password u)); [|done].
  destruct (bcrypt_compare (newPassword p) (User.password u)); [done|].
  simpl in *. injection Hout as <-.
  set (u' := setPassword (bcrypt_hash (newPassword p) 7) u).
  set (st' := setUsers _ st).
  assert (findOne (λ v, User.email v = User.email u) (users st')
          = Some (userId, u')) as Hf.
  { apply (findOne_email_sole userId u' st').
    - apply lookup_insert_eq.
    - by apply (soleOwner_insert userId u u' st). }
  intros attempt.
  rewrite (signIn_found (User.email u) attempt st' userId u' Hf). simpl.
  split; intros ->; [|done]. eexists. split; done.
Qed.

Lemma dan_sole : soleOwner 7 "dan@example.org" twoAccounts.
Proof.
  intros id' u' Hid' He. unfold twoAccounts in Hid'. simpl in Hid'.
  destruct (decide (id' = 7)) as [->|H7]; [reflexivity|].
  destruct (decide (id' = 1)) as [->|H1].
  { vm_compute in Hid'. injection Hid' as <-. discriminate He. }
  rewrite lookup_insert_ne in Hid' by done.
  rewrite lookup_singleton_ne in Hid' by done. discriminate Hid'.
Defined.

(** X20 at work: Dan's old password is refused after the change. *)
Lemma password_change_then_signIn_witness :
  signIn (H := demo true) "dan@example.org" "hunter2"
    (after (updateProfilePassword (H := demo true)
              (mkPasswordChange "hunter2" "hunter3" "hunter3") 7)
       twoAccounts)
  = (Rejected (WrongPassword "hunter2"),
     after (updateProfilePassword (H := demo true)
              (mkPasswordChange "hunter2" "hunter3" "hunter3") 7)
       twoAccounts).
Proof.
  destruct (password_change_then_signIn (H := demo true)
              (mkPasswordChange "hunter2" "hunter3" "hunter3") 7 twoAccounts
              dan (UserDto.ofInstance (7, setPassword "hash:hunter3" dan))
              eq_refl dan_sole eq_refl "hunter2") as [_ Hold].
  apply Hold. reflexivity.
Defined.

(** X21. After a profile update that moves an account to an email no
    account had, [signIn] under the new email is decided by the unchanged
    password hash, and, the account having been the only one with the old
    email, [signIn] under the old email is rejected as not registered. *)
Theorem email_change_then_signIn `{Environment} (data : ProfileData)
    (userId : Z) (st : State) (u : User.t) (email' : string) :
  users st !! userId = Some u →
  pd_email data = Some email' →
  email' ≠ User.email u →
  ¬ accountExists email' st →
  soleOwner userId (User.email u) st →
  let st' := after (updateProfileData data userId) st in
  ∀ attempt,
    (bcrypt_compare attempt (User.password u) = true →
       ∃ s, outcome (signIn email' attempt) st' = Fulfilled s
            ∧ user s = UserDto.ofInstance (userId, setProfile data u))
    ∧ (bcrypt_compare attempt (User.password u) = false →
         signIn email' attempt st' = (Rejected (WrongPassword attempt), st'))
    ∧ signIn (User.email u) attempt st'
      = (Rejected (NotRegistered (User.email u)), st').
Proof.
  intros Hu Hdata Hne Hfree Hsole st'. subst st'. unfold after.
  rewrite updateProfileData_run, Hu. simpl.
  set (u' := setProfile data u). set (st' := setUsers _ st).
  assert (User.email u' = email') as He'.
  { unfold u', setProfile. simpl. by rewrite Hdata. }
  assert (users st' !! userId = Some u') as Hu' by apply lookup_insert_eq.
  assert (findOne (λ v, User.email v = email') (users st')
          = Some (userId, u')) as Hf.
  { rewrite <- He'. apply (findOne_email_sole userId u' st' Hu').
    intros id' v Hid' Hv. simpl in Hid'.
    destruct (decide (id' = userId)) as [->|Hid]; [done|].
    rewrite lookup_insert_ne in Hid' by done.
    destruct Hfree. exists id', v. split; [done|]. congruence. }
  assert (¬ accountExists (User.email u) st') as Hgone.
  { intros (id' & v & Hid' & Hv). simpl in Hid'.
    destruct (decide (id' = userId)) as [->|Hid].
    - rewrite lookup_insert_eq in Hid'. injection Hid' as <-. congruence.
    - rewrite lookup_insert_ne in Hid' by done.
      apply Hid. by apply (Hsole id' v). }
  intros attempt. unfold outcome.
  rewrite (signIn_found email' attempt st' userId u' Hf).
  rewrite (signIn_no_account (User.email u) attempt st' Hgone).
  change (User.password u') with (User.password u).
  split; [|split; [|done]]; intros ->; [|done].
  eexists. split; done.
Qed.

(** X21 at work: Dan moves to a new address. *)
Lemma email_change_then_signIn_witness :
  let st' :=
    after (updateProfileData
             (mkProfileData (Some "dan@new.org") None None None None None None)
             7) twoAccounts in
  signIn (H := demo true) "dan@example.org" "hunter2" st'
  = (Rejected (NotRegistered "dan@example.org"), st').
Proof.
  assert (¬ accountExists "dan@new.org" twoAccounts) as Hfree.
  { intros (id & u & Hid & He). unfold twoAccounts in Hid. simpl in Hid.
    destruct (decide (id = 1)) as [->|H1].
    { vm_compute in Hid. injection Hid as <-. discriminate He. }
    rewrite lookup_insert_ne in Hid by done.
    destruct (decide (id = 7)) as [->|H7].
    { vm_compute in Hid. injection Hid as <-. discriminate He. }
    rewrite lookup_singleton_ne in Hid by done. discriminate Hid. }
  destruct (email_change_then_signIn (H := demo true)
              (mkProfileData (Some "dan@new.org") None None None None None None)
              7 twoAccounts dan "dan@new.org" eq_refl eq_refl
              ltac:(discriminate) Hfree dan_sole "hunter2")
    as (_ & _ & Hold).
  exact Hold.
Defined.

(** ** One session per account *)

(** X22. A successful [signIn] replaces the refresh token stored for the
    account: the token the account had before, if no other account holds
    it and the issued one differs from it, no longer resolves, and
    [refresh] of it is rejected with Unauthorized without a write. *)
Theorem signIn_replaces_session `{Environment} (email password : string)
    (st : State) (s : Session) (old : string) :
  outcome (signIn email password) st = Fulfilled s →
  tokens st !! UserDto.id (user s) = Some old →
  (∀ id', tokens st !! id' = Some old → id' = UserDto.id (user s)) →
  refreshToken (sessionTokens s) ≠ old →
  let st' := after (signIn email password) st in
  tokens st' !! UserDto.id (user s) = Some (refreshToken (sessionTokens s))
  ∧ ¬ resolves old st'
  ∧ refresh old st' = (Rejected Unauthorized, st').
Proof.
  intros Hout Hold Honly Hdiff st'. subst st'.
  destruct (accountExists_dec email st) as [Hex|Hno].
  2:{ unfold outcome in Hout.
      by rewrite (signIn_no_account email password st Hno) in Hout. }
  destruct (findOne_email_found email st Hex) as (id & u & Hf & Hu & He).
  unfold outcome, after in *.
  rewrite (signIn_found email password st id u Hf) in Hout |- *.
  destruct (bcrypt_compare password (User.password u)); [|done].
  simpl in *. injection Hout as <-. simpl in *.
  set (st' := setTokens _ st).
  assert (¬ resolves old st') as Hnr.
  { intros [id' Hid']. simpl in Hid'.
    destruct (decide (id' = id)) as [->|Hne].
    - rewrite lookup_insert_eq in Hid'. congruence.
    - rewrite lookup_insert_ne in Hid' by done. by apply Hne, Honly. }
  split; [apply lookup_insert_eq|]. split; [done|].
  by apply refresh_unknown.
Qed.

(** X22 at work: Ann signs in while a stale token is stored for her. *)
Lemma signIn_replaces_session_witness :
  let st' := after (signIn (H := demo true) "ann@example.org" "secret")
               staleSession in
  tokens st' !! 1 = Some "refresh:ann@example.org"
  ∧ ¬ resolves "refresh:stale" st'
  ∧ refresh (H := demo true) "refresh:stale" st'
    = (Rejected Unauthorized, st').
Proof.
  apply (signIn_replaces_session (H := demo true)
           "ann@example.org" "secret" staleSession
           (mkSession
              (mkTokens "access:ann@example.org" "refresh:ann@example.org")
              (UserDto.ofInstance (1, ann "ann@example.org")))
           "refresh:stale").
  - vm_compute. reflexivity.
  - reflexivity.
  - intros id' Hid'. unfold staleSession in Hid'. simpl in Hid'.
    destruct (decide (id' = 1)) as [->|Hne]; [reflexivity|].
    rewrite lookup_singleton_ne in Hid' by done. discriminate Hid'.
  - discriminate.
Defined.
